(** * Silex: flux store subscriptions, backend registry and publication jobs

    A shallow embedding of the parts of Silex that its specification makes
    promises about:

    - [Flux]: src/client/flux/store.ts, the Redux store, the module-level
      state tracker and the slice subscriptions [subscribeToCrud] and
      [subscribeTo];
    - [Backends]: src/ts/server/backends/index.ts, backend resolution
      ([getBackend]), the descriptor sent to the client ([toBackendData])
      and the Express routes [routeLoginStatus] and [routeLogout];
    - [Crud]: the entity store behind [withCrud] and its per-collection
      options as configured in store.ts;
    - [Jobs]: the types of the publication API (types.ts) and the job table
      of the publication orchestrator;
    - [RootReducer]: the root reducer that store.ts builds with
      [combineReducers];
    - [Routes]: the routes [routeListBackends] and [routeLoginSuccess] of
      backends/index.ts, with [sendHtml];
    - [ResizeProjectPanel]: the command of
      src/ts/client/grapesjs/resize-project-panel.ts. *)

From stdpp Require Import base decidable option list strings gmap fin_maps pretty sorting.
From Stdlib Require Import ZArith Lia.



(** ** The flux store (src/client/flux/store.ts) *)
Module Flux.

(** What [state[name]] evaluates to.  Slices are arrays and objects, and the
    subscription code only ever compares them with [!==], so an object is
    represented by its identity.  [VInherited name] is what a plain object
    answers for a name that is not one of its own keys: the member of
    [Object.prototype] under that name ([toString], [constructor], ...), or
    [undefined] when there is none; it is the same for every state. *)
Inductive value : Type :=
| VUndefined
| VNull
| VRef (r : nat)
| VInherited (name : string).

#[global] Instance value_eq_dec : EqDecision value.
Proof. solve_decision. Defined.

(** [a !== b] *)
Definition strict_neq (a b : value) : bool := bool_decide (a ≠ b).

(** [interface State] *)
Record State : Type := mkState {
  pages : value;
  elements : value;
  site : value;
  ui : value;
}.

(** [state[name]]: a name that is not a key of the state reads what the
    state object inherits under that name. *)
Definition get (s : State) (name : string) : value :=
  if decide (name = "pages") then pages s
  else if decide (name = "elements") then elements s
  else if decide (name = "site") then site s
  else if decide (name = "ui") then ui s
  else VInherited name.

(** One invocation of a subscriber callback: [cbk(prev, next)], made by the
    listener that [store.subscribe] registered under handle [by]. *)
Record call : Type := mkCall {
  by_ : nat;
  callee : nat;
  prev : value;
  next : value;
}.

#[global] Instance call_eq_dec : EqDecision call.
Proof. solve_decision. Defined.

(** The functions handed to [store.subscribe] in this module. *)
Inductive listener : Type :=
| TrackState
    (* store.subscribe(() => { prevState = curState; curState = store.getState() }) *)
| Notify (handle : nat) (name : string) (cbk : nat).
    (* the closure built by subscribeToCrud / subscribeTo *)

(** The Redux store together with the module variables [prevState] and
    [curState]; [None] is [undefined].  [calls] is the trace of callback
    invocations, oldest first. *)
Record world : Type := mkWorld {
  store_state : State;
  listeners : list listener;
  next_handle : nat;
  prevState : option State;
  curState : option State;
  calls : list call;
}.

Definition set_store (s : State) (w : world) : world :=
  mkWorld s (listeners w) (next_handle w) (prevState w) (curState w) (calls w).

Definition set_tracked (p c : option State) (w : world) : world :=
  mkWorld (store_state w) (listeners w) (next_handle w) p c (calls w).

Definition invoke (c : call) (w : world) : world :=
  mkWorld (store_state w) (listeners w) (next_handle w) (prevState w) (curState w)
          (calls w ++ [c]).

(** The body of the subscriptions of lines 45-61:
<<
    const state = store.getState()
    if (!prevState || state[name] !== prevState[name]) {
      cbk(prevState ? prevState[name] : null, state[name])
    }
>> *)
Definition notify (handle : nat) (name : string) (cbk : nat) (w : world) : world :=
  let state := store_state w in
  if match prevState w with
     | None => true
     | Some p => strict_neq (get state name) (get p name)
     end
  then invoke (mkCall handle cbk
                 (match prevState w with Some p => get p name | None => VNull end)
                 (get state name)) w
  else w.

Definition run_listener (l : listener) (w : world) : world :=
  match l with
  | TrackState => set_tracked (curState w) (Some (store_state w)) w
  | Notify h name cbk => notify h name cbk w
  end.

(** Redux calls the listeners in the order of their subscription. *)
Fixpoint run_listeners (ls : list listener) (w : world) : world :=
  match ls with
  | [] => w
  | l :: ls' => run_listeners ls' (run_listener l w)
  end.

(** [store.subscribe(f)]: [f] goes to the end of the listener list. *)
Definition subscribe (mk : nat → listener) (w : world) : world :=
  mkWorld (store_state w) (listeners w ++ [mk (next_handle w)])
          (S (next_handle w)) (prevState w) (curState w) (calls w).

Definition subscribeToCrud (name : string) (cbk : nat) (w : world) : world :=
  subscribe (λ h, Notify h name cbk) w.

Definition subscribeTo (name : string) (cbk : nat) (w : world) : world :=
  subscribe (λ h, Notify h name cbk) w.

Definition has_handle (h : nat) (l : listener) : bool :=
  match l with
  | TrackState => false
  | Notify h' _ _ => bool_decide (h' = h)
  end.

(** The function returned by [subscribeToCrud] / [subscribeTo]. *)
Definition unsubscribe (h : nat) (w : world) : world :=
  mkWorld (store_state w) (filter (λ l, has_handle h l = false) (listeners w))
          (next_handle w) (prevState w) (curState w) (calls w).

Section Store.

(** The actions and the root reducer given to [createStore]. *)
Variable Action : Type.
Variable reducer : State → Action → State.

(** [store.dispatch(action)] *)
Definition dispatch (a : Action) (w : world) : world :=
  run_listeners (listeners w) (set_store (reducer (store_state w) a) w).

(** The module as loaded: the store holds its initial state and the only
    listener is the tracker of lines 65-68. *)
Definition init (s0 : State) : world :=
  mkWorld s0 [TrackState] 0 None None [].

Inductive op : Type :=
| SubscribeToCrud (name : string) (cbk : nat)
| SubscribeTo (name : string) (cbk : nat)
| Unsubscribe (h : nat)
| Dispatch (a : Action).

Definition run_op (o : op) (w : world) : world :=
  match o with
  | SubscribeToCrud name cbk => subscribeToCrud name cbk w
  | SubscribeTo name cbk => subscribeTo name cbk w
  | Unsubscribe h => unsubscribe h w
  | Dispatch a => dispatch a w
  end.

(** What the clients of the module did since it was loaded, oldest first. *)
Definition run (ops : list op) (s0 : State) : world :=
  foldl (λ w o, run_op o w) (init s0) ops.

Definition is_dispatch (o : op) : bool :=
  match o with Dispatch _ => true | _ => false end.

End Store.

Arguments SubscribeToCrud {Action}.
Arguments SubscribeTo {Action}.
Arguments Unsubscribe {Action}.
Arguments Dispatch {Action}.
Arguments is_dispatch {Action}.

End Flux.

(** ** The types shared by client and server (src/ts/types.ts) *)
Module Types.

Abbreviation BackendId := string (only parsing).
Abbreviation WebsiteId := string (only parsing).
Abbreviation JobId := string (only parsing).

(** [enum BackendType] *)
Inductive BackendType : Type := STORAGE | HOSTING.

#[global] Instance BackendType_eq_dec : EqDecision BackendType.
Proof. solve_decision. Defined.

(** [interface BackendData], the descriptor sent to the front end.  The
    fields [type], [displayName], [icon], [disableLogout] and [isLoggedIn]
    carry the prefix [bd_] to tell them from those of a backend. *)
Record BackendData : Type := mkBackendData {
  backendId : BackendId;
  bd_type : BackendType;
  bd_displayName : string;
  bd_icon : string;
  bd_disableLogout : bool;
  bd_isLoggedIn : bool;
  authUrl : option string;
}.

(** [interface BackendUser]; the free-form [metadata] object is kept as its
    JSON text. *)
Record BackendUser : Type := mkBackendUser {
  name : string;
  email : option string;
  picture : option string;
  user_metadata : option string;
}.

(** [interface WebsiteMeta]; dates as milliseconds since the epoch. *)
Record WebsiteMeta : Type := mkWebsiteMeta {
  websiteId : WebsiteId;
  createdAt : Z;
  updatedAt : Z;
  metadata : option string;
}.

(** [enum JobStatus] *)
Inductive JobStatus : Type := IN_PROGRESS | SUCCESS | ERROR.

#[global] Instance JobStatus_eq_dec : EqDecision JobStatus.
Proof. solve_decision. Defined.

(** [interface JobData]; [_timeout] is the handle of the timer that
    [setTimeout] returned (internal use). *)
Record JobData : Type := mkJobData {
  jobId : JobId;
  status : JobStatus;
  message : string;
  url : option string;
  _timeout : option nat;
}.

(** [interface PublicationJobData extends JobData] *)
Record PublicationJobData : Type := mkPublicationJobData {
  job : JobData;
  logs : list (list string);
  errors : list (list string);
}.

End Types.

(** ** Backends (src/ts/server/backends/index.ts) *)
Module Backends.
Import Types.

(** A thrown value, as the [catch] blocks of the routes read it:
    [error?.code] and [error.message]. *)
Record JsError : Type := mkError {
  code : option Z;
  error_message : string;
}.

(** [new Error(message)]: an error without a [code]. *)
Definition Error (msg : string) : JsError := mkError None msg.

(** A settled promise, or the outcome of a block that may throw. *)
Inductive result (A : Type) : Type :=
| Ok (a : A)
| Throw (e : JsError).
Arguments Ok {A} a.
Arguments Throw {A} e.

#[global] Instance result_ret : MRet result := λ A a, Ok a.
#[global] Instance result_bind : MBind result := λ A B f m,
  match m with
  | Ok a => f a
  | Throw e => Throw e
  end.

(** [if (s)] on an optional string: [undefined] and the empty string are
    falsy. *)
Definition truthy (s : option string) : bool :=
  match s with
  | Some s => negb (bool_decide (s = ""))
  | None => false
  end.

(** [x ?? d] *)
Definition nullish {A : Type} (x : option A) (d : A) : A := default d x.

(** [!!x] on an optional boolean. *)
Definition to_boolean (x : option bool) : bool := default false x.

(** The value of
    [websiteId && backend.type === BackendType.STORAGE && await getSiteMeta(..)]:
    the first falsy operand, or the metadata. *)
Inductive MetaField : Type :=
| MetaUndefined
| MetaEmptyString
| MetaFalse
| MetaOf (m : WebsiteMeta).

Definition populated (m : MetaField) : bool :=
  match m with MetaOf _ => true | _ => false end.

(** What the routes hand to [res.json]. *)
Inductive body : Type :=
| ErrorBody (error : bool) (message : string)
    (* ApiResponseError *)
| LoginStatusBody (backend : BackendData) (user : BackendUser) (websiteMeta : MetaField).
    (* ApiBackendLoginStatusResponse *)

(** The response as sent: [res.status(code).json(body)]. *)
Record response : Type := respond {
  statusCode : Z;
  json : body;
}.
Arguments respond statusCode%_Z json.

(** [ApiBackendLoginStatusRequestQuery] *)
Record LoginStatusQuery : Type := mkLoginStatusQuery {
  ls_id : option WebsiteId;
  ls_backendId : option BackendId;
  ls_type : BackendType;
}.

(** [ApiBackendLogoutRequestQuery], each field possibly missing from the
    query string.  A [type] that is present names a backend type in any
    letter case, on which [toBackendEnum] gives the member of the enum. *)
Record LogoutQuery : Type := mkLogoutQuery {
  lo_backendId : option BackendId;
  lo_type : option BackendType;
}.

Definition BackendType_name (ty : BackendType) : string :=
  match ty with STORAGE => "STORAGE" | HOSTING => "HOSTING" end.

Section Session.

(** What a session object holds is the business of the backends. *)
Variable Session : Type.

(** [type BackendSession = any]: the session object of the request, or
    [undefined] ([None]) when the request carries none. *)
Definition BackendSession : Type := option Session.

(** [interface Backend], with [getSiteMeta] of [StorageProvider], the only
    method of the extended interfaces that the routes call.  A method that
    a backend lacks throws when it is called. *)
Record Backend : Type := mkBackend {
  id : BackendId;
  displayName : string;
  icon : string;
  disableLogout : option bool;
  type : BackendType;
  getAdminUrl : BackendSession → WebsiteId → result (option string);
  getAuthorizeURL : BackendSession → result (option string);
  isLoggedIn : BackendSession → result bool;
  logout : BackendSession → result ();
  getUserData : BackendSession → result BackendUser;
  init : BackendSession → WebsiteId → result ();
  getSiteMeta : BackendSession → WebsiteId → result WebsiteMeta;
}.

(** Of [ServerConfig] (config.ts) the code at hand uses [getBackends]
    alone: the backends registered for a type, in registration order. *)
Record ServerConfig : Type := mkServerConfig {
  getBackends : BackendType → list Backend;
}.

(** The loop of [getBackend]:
<<
    for (const backend of backends) {
      if (await backend.isLoggedIn(session)) return backend
    }
>> *)
Fixpoint firstLoggedIn (session : BackendSession) (backends : list Backend)
  : result (option Backend) :=
  match backends with
  | [] => Ok None
  | backend :: rest =>
      loggedIn ← isLoggedIn backend session;
      if (loggedIn : bool) then Ok (Some backend)
      else firstLoggedIn session rest
  end.

(** [getBackend(config, session, type, backendId?)] *)
Definition getBackend (config : ServerConfig) (session : BackendSession)
    (ty : BackendType) (backendId : option BackendId) : result (option Backend) :=
  let backends := getBackends config ty in
  if truthy backendId
  then Ok (List.find
             (λ s, bool_decide (Some (id s) = backendId) && bool_decide (type s = ty))
             backends)
  else
    found ← firstLoggedIn session backends;
    match found with
    | Some backend => Ok (Some backend)
    | None => Ok (head backends)
    end.

(** [toBackendData(session, backend)] *)
Definition toBackendData (session : BackendSession) (backend : Backend)
  : result BackendData :=
  loggedIn ← isLoggedIn backend session;
  url ← getAuthorizeURL backend session;
  mret {| backendId := id backend;
          bd_type := type backend;
          bd_displayName := displayName backend;
          bd_icon := icon backend;
          bd_disableLogout := to_boolean (disableLogout backend);
          bd_isLoggedIn := loggedIn;
          authUrl := url |}.

(** An Express request, as far as the routes read it: [req.app.get('config')],
    [req.query] and [req['session']]. *)
Record Request (Query : Type) : Type := mkRequest {
  app_config : option ServerConfig;
  query : option Query;
  session : BackendSession;
}.
Arguments app_config {Query}.
Arguments query {Query}.
Arguments session {Query}.

(** The error that [requiredParam] (utils/validation.ts) throws for the
    parameter described by its second argument. *)
Variable missingParam : string → JsError.

(** Modelled from the spec: [requiredParam] of utils/validation.ts, which is
    not part of the sources at hand.  A required parameter that is missing
    fails the request with a validation error; one that is present is
    returned as it is. *)
Definition requiredParam {T : Type} (value : option T) (name : string) : result T :=
  match value with
  | Some v => Ok v
  | None => Throw (missingParam name)
  end.

(** The last two lines of the [try] block of [routeLoginStatus]. *)
Definition siteMeta (session : BackendSession) (backend : Backend)
    (websiteId : option WebsiteId) : result MetaField :=
  match websiteId with
  | None => Ok MetaUndefined
  | Some wid =>
      if bool_decide (wid = "") then Ok MetaEmptyString
      else if bool_decide (type backend = STORAGE)
           then meta ← getSiteMeta backend session wid; mret (MetaOf meta)
           else Ok MetaFalse
  end.

(** [routeLoginStatus(req, res)] *)
Definition routeLoginStatus (req : Request LoginStatusQuery) : response :=
  match
    config ← requiredParam (app_config req) "Config object on express js APP";
    query ← requiredParam (query req) "Query object";
    session ← requiredParam (session req) "Session object";
    let websiteId := ls_id query in
    let backendId := ls_backendId query in
    let ty := ls_type query in
    backend ← getBackend config (Some session) ty backendId;
    match backend with
    | None => mret (respond 500 (ErrorBody true "No backend found"))
    | Some backend =>
        loggedIn ← isLoggedIn backend (Some session);
        if negb loggedIn
        then mret (respond 401 (ErrorBody true "Not logged in"))
        else
          backendData ← toBackendData (Some session) backend;
          user ← getUserData backend (Some session);
          websiteMeta ← siteMeta (Some session) backend websiteId;
          mret (respond 200 (LoginStatusBody backendData user websiteMeta))
    end
  with
  | Ok res => res
  | Throw error =>
      respond (nullish (code error) 500%Z) (ErrorBody true (error_message error))
  end.

(** Reading the property [property] of [req.query]: a [TypeError] when
    there is no query object. *)
Definition queryOf {Query : Type} (req : Request Query) (property : string)
  : result Query :=
  match query req with
  | Some q => Ok q
  | None =>
      Throw (Error ("Cannot read properties of undefined (reading '"
                    +:+ property +:+ "')"))
  end.

(** [routeLogout(req, res)] *)
Definition routeLogout (req : Request LogoutQuery) : response :=
  match
    query ← queryOf req "backendId";
    backendId ← requiredParam (lo_backendId query) "Backend id";
    config ← requiredParam (app_config req) "Config object on express js APP";
    ty ← requiredParam (lo_type query) "Backend type";
    backend ← getBackend config (session req) ty (Some backendId);
    match backend with
    | None =>
        Throw (Error ("Backend not found " +:+ backendId +:+ " " +:+ BackendType_name ty))
    | Some backend =>
        match logout backend (session req) with
        | Ok _ => mret (respond 200 (ErrorBody false "OK"))
        | Throw error =>
            mret (respond (nullish (code error) 500%Z)
                    (ErrorBody true ("Error while logging out: " +:+ error_message error)))
        end
    end
  with
  | Ok res => res
  | Throw error =>
      respond (nullish (code error) 400%Z)
        (ErrorBody true ("Error in the logout request: " +:+ error_message error))
  end.

End Session.

Arguments mkBackend {Session}.
Arguments mkServerConfig {Session}.
Arguments mkRequest {Session Query}.
Arguments id {Session}.
Arguments displayName {Session}.
Arguments icon {Session}.
Arguments disableLogout {Session}.
Arguments type {Session}.
Arguments getAuthorizeURL {Session}.
Arguments isLoggedIn {Session}.
Arguments logout {Session}.
Arguments getUserData {Session}.
Arguments getSiteMeta {Session}.
Arguments getBackends {Session}.
Arguments firstLoggedIn {Session}.
Arguments getBackend {Session}.
Arguments toBackendData {Session}.
Arguments app_config {Session Query}.
Arguments query {Session Query}.
Arguments session {Session Query}.
Arguments siteMeta {Session}.
Arguments routeLoginStatus {Session}.
Arguments routeLogout {Session}.

End Backends.

(** ** The entity store behind [withCrud] *)
Module Crud.

(** The options that store.ts passes to [withCrud], [actionEnum] and
    [reducer] aside. *)
Record CrudOptions : Type := mkCrudOptions {
  label : string;
  allowSetId : bool;
}.

(** store.ts, lines 29-34 *)
Definition pages : CrudOptions := mkCrudOptions "Pages" true.

(** store.ts, lines 35-40 *)
Definition elements : CrudOptions := mkCrudOptions "Elements" false.

(** Modelled from the spec: the store-level errors of the Entity Store
    (section 7); crud-store.ts is not part of the sources at hand. *)
Inductive StoreError : Type :=
| DuplicateIdError (id : string)
| NotFoundError (id : string).

(** A run of [n] letters x. *)
Fixpoint run_of_x (n : nat) : string :=
  match n with
  | 0 => ""
  | S n' => "x" +:+ run_of_x n'
  end.

(** Modelled from the spec: the generator of ids of the Entity Store
    (crud-store.ts is missing).  The spec asks for a fresh unique id and
    leaves open how it is made; here it is made from the ids in use, as a
    run of x one longer than the longest of them. *)
Definition freshId (used : list string) : string :=
  run_of_x (S (max_list (String.length <$> used))).

Section EntityStore.

(** What an entity holds besides its id. *)
Variable Fields : Type.

(** Modelled from the spec: an entity as the caller hands it to [create],
    with or without an id (crud-store.ts is missing). *)
Record Draft : Type := mkDraft {
  draft_id : option string;
  draft_fields : Fields;
}.

(** Modelled from the spec: an entity as stored, a record with a unique
    string identifier (crud-store.ts is missing). *)
Record Entity : Type := mkEntity {
  id : string;
  fields : Fields;
}.

(** The ids of [list()], in order. *)
Definition ids (collection : list Entity) : list string := id <$> collection.

(** Modelled from the spec: [create] of the Entity Store; crud-store.ts,
    where [withCrud] is defined, is not part of the sources at hand.  If
    [allowCallerSuppliedId] is false, any caller-supplied id is ignored and
    a fresh unique id is generated; if true and the id is already present,
    fails with [DuplicateIdError].  Appends to the end of the ordered
    sequence.  Returns the stored entity (with final id). *)
Definition create (entity : Draft) (allowCallerSuppliedId : bool)
    (collection : list Entity) : StoreError + Entity * list Entity :=
  let supplied := if allowCallerSuppliedId then draft_id entity else None in
  match supplied with
  | Some i =>
      if bool_decide (i ∈ ids collection) then inl (DuplicateIdError i)
      else let stored := mkEntity i (draft_fields entity) in
           inr (stored, collection ++ [stored])
  | None =>
      let stored := mkEntity (freshId (ids collection)) (draft_fields entity) in
      inr (stored, collection ++ [stored])
  end.

(** Modelled from the spec: [create] in a collection made by
    [withCrud(options)] (crud-store.ts is missing): the per-collection
    toggle [allowSetId] is what the spec calls [allowCallerSuppliedId]. *)
Definition createIn (options : CrudOptions) (entity : Draft)
    (collection : list Entity) : StoreError + Entity * list Entity :=
  create entity (allowSetId options) collection.

End EntityStore.

Arguments mkDraft {Fields}.
Arguments mkEntity {Fields}.
Arguments draft_id {Fields}.
Arguments draft_fields {Fields}.
Arguments id {Fields}.
Arguments fields {Fields}.
Arguments ids {Fields}.
Arguments create {Fields}.
Arguments createIn {Fields}.

End Crud.

(** ** Publication jobs *)
Module Jobs.
Import Types.

(** JSON values, as far as a job is made of them. *)
#[local] Unset Elimination Schemes.
Inductive Json : Type :=
| JString (s : string)
| JArray (items : list Json)
| JObject (members : list (string * Json)).
#[local] Set Elimination Schemes.

(** The values of [enum JobStatus]. *)
Definition JobStatus_value (s : JobStatus) : string :=
  match s with
  | IN_PROGRESS => "IN_PROGRESS"
  | SUCCESS => "SUCCESS"
  | ERROR => "ERROR"
  end.

(** [string[][]] *)
Definition groups (gs : list (list string)) : Json :=
  JArray ((λ g, JArray (JString <$> g)) <$> gs).

(** Reading [string[][]] back. *)
Definition asString (v : Json) : option string :=
  match v with JString s => Some s | _ => None end.

Definition asGroup (v : Json) : option (list string) :=
  match v with JArray items => mapM asString items | _ => None end.

Definition asGroups (v : Json) : option (list (list string)) :=
  match v with JArray items => mapM asGroup items | _ => None end.

(** Modelled from the spec: the answer to a poll; the route that sends it is
    not part of the sources at hand.  Job polling response shape:
    [{jobId, status, message, url?, logs: [[string]], errors: [[string]]}];
    [_timeout] is for internal use and is not sent. *)
Definition pollingResponse (j : PublicationJobData) : Json :=
  JObject
    ([("jobId", JString (jobId (job j)));
      ("status", JString (JobStatus_value (status (job j))));
      ("message", JString (message (job j)))]
     ++ match url (job j) with
        | Some u => [("url", JString u)]
        | None => []
        end
     ++ [("logs", groups (logs j)); ("errors", groups (errors j))]).

(** Modelled from the spec: an entry of the job table, which is not part of
    the sources at hand: the job, whether its write step is done, and its
    expiry deadline. *)
Record Job : Type := mkJob {
  data : PublicationJobData;
  written : bool;
  deadline : nat;
}.

(** Modelled from the spec: the publication orchestrator, which is not part
    of the sources at hand: a clock, the counter from which job ids are
    made, and the job table keyed by job id. *)
Record Orchestrator : Type := mkOrchestrator {
  now : nat;
  nextJobId : nat;
  jobs : gmap string Job;
}.

(** Modelled from the spec: the orchestrator when the process starts, with
    no job. *)
Definition start : Orchestrator := mkOrchestrator 0 0 ∅.

(** Modelled from the spec: what happens to the orchestrator (4.4): requests
    of the client, the outcomes of the steps of a pipeline, and time. *)
Inductive event : Type :=
| Publish (ttl : nat) (msg : string)
    (* a publish request is accepted *)
| WriteDone (id : JobId) (lines : list string)
    (* writeFiles of the storage backend returned *)
| WriteFailed (id : JobId) (err msg : string)
    (* writeFiles of the storage backend failed *)
| HostingStatus (id : JobId) (lines errs : list string)
    (* the status callback of the hosting backend *)
| PublishDone (id : JobId) (msg url : string)
    (* publish of the hosting backend returned *)
| PublishFailed (id : JobId) (err msg : string)
    (* publish of the hosting backend failed *)
| Elapse (dt : nat)
    (* time passes, the sweep runs *)
| Poll (id : JobId).
    (* the client asks for the status of a job *)

(** Modelled from the spec: what the orchestrator answers to a request. *)
Inductive output : Type :=
| Accepted (id : JobId)
| Snapshot (d : PublicationJobData)
| NotFoundError (id : JobId)
| Silent.

(** Modelled from the spec: the updates of a job by its pipeline; status,
    message and url are set together, lines are appended as a new group per
    step. *)
Definition settle (st : JobStatus) (msg : string) (u : option string)
    (d : PublicationJobData) : PublicationJobData :=
  mkPublicationJobData
    (mkJobData (jobId (job d)) st msg u (_timeout (job d))) (logs d) (errors d).

Definition appendLogs (lines : list string) (d : PublicationJobData)
  : PublicationJobData :=
  mkPublicationJobData (job d) (logs d ++ [lines]) (errors d).

Definition appendErrors (errs : list string) (d : PublicationJobData)
  : PublicationJobData :=
  mkPublicationJobData (job d) (logs d) (errors d ++ [errs]).

(** Modelled from the spec: the orchestrator alone mutates a job, while the
    job is in progress, and with the steps in sequence: first the write
    step, then the hosting step.  [drive id stage f] applies [f] to the job
    [id] if it is in progress and its write step is done or not as [stage]
    says; a job that reached [SUCCESS] or [ERROR] is left as it is. *)
Definition drive (id : JobId) (stage : bool) (f : Job → Job) (o : Orchestrator)
  : Orchestrator :=
  match jobs o !! id with
  | Some j =>
      if bool_decide (status (job (data j)) = IN_PROGRESS)
         && bool_decide (written j = stage)
      then mkOrchestrator (now o) (nextJobId o) (<[id := f j]> (jobs o))
      else o
  | None => o
  end.

(** Modelled from the spec: an update of the job of a table entry, and the
    end of the write step. *)
Definition onData (f : PublicationJobData → PublicationJobData) (j : Job) : Job :=
  mkJob (f (data j)) (written j) (deadline j).

Definition writeDone (j : Job) : Job := mkJob (data j) true (deadline j).

(** Modelled from the spec: at time [t], a job whose deadline has passed is
    evicted regardless of status. *)
Definition sweep (t : nat) (table : gmap string Job) : gmap string Job :=
  filter (λ kj, t ≤ deadline kj.2) table.

(** Modelled from the spec: one event of the orchestrator, after the
    transition rules 1 to 4 of section 4.4 and the note on polling as a pure
    read of the job table. *)
Definition step (e : event) (o : Orchestrator) : Orchestrator * output :=
  match e with
  | Publish ttl msg =>
      let id := pretty (nextJobId o) in
      let d := mkPublicationJobData (mkJobData id IN_PROGRESS msg None None) [] [] in
      (mkOrchestrator (now o) (S (nextJobId o))
         (<[id := mkJob d false (now o + ttl)]> (jobs o)),
       Accepted id)
  | WriteDone id lines =>
      (drive id false (λ j, writeDone (onData (appendLogs lines) j)) o, Silent)
  | WriteFailed id err msg =>
      (drive id false
         (onData (λ d, settle ERROR msg (url (job d)) (appendErrors [err] d))) o,
       Silent)
  | HostingStatus id lines errs =>
      (drive id true (onData (λ d, appendErrors errs (appendLogs lines d))) o, Silent)
  | PublishDone id msg u =>
      (drive id true (onData (settle SUCCESS msg (Some u))) o, Silent)
  | PublishFailed id err msg =>
      (drive id true
         (onData (λ d, settle ERROR msg (url (job d)) (appendErrors [err] d))) o,
       Silent)
  | Elapse dt =>
      (mkOrchestrator (now o + dt) (nextJobId o) (sweep (now o + dt) (jobs o)), Silent)
  | Poll id =>
      (o, match jobs o !! id with
          | Some j => Snapshot (data j)
          | None => NotFoundError id
          end)
  end.

(** Modelled from the spec: a history of the orchestrator, oldest event
    first. *)
Definition run (es : list event) (o : Orchestrator) : Orchestrator :=
  foldl (λ o e, (step e o).1) o es.

(** Modelled from the spec: what a poll of [id] answers in [o]. *)
Definition poll (id : JobId) (o : Orchestrator) : output := (step (Poll id) o).2.

(** Modelled from the spec: [SUCCESS] and [ERROR] are the terminal states. *)
Definition terminal (s : JobStatus) : bool :=
  match s with IN_PROGRESS => false | SUCCESS | ERROR => true end.

End Jobs.

(** ** The root reducer of the store (src/client/flux/store.ts, lines 28-43) *)
Module RootReducer.
Import Flux.

Section Reducers.

Variable Action : Type.

(** The reducers given to [combineReducers]: [withCrud({...})] for the pages
    and for the elements, [siteReducer] and [uiReducer].  A reducer takes
    the slice and the action to the next slice; a dispatched action stands
    for itself and for what the reducers allocate on it. *)
Variable pagesReducer elementsReducer siteReducer uiReducer : value → Action → value.

(** Redux's [combineReducers({pages, elements, site, ui})]: every reducer
    is run on its own slice. *)
Definition combineReducers (state : State) (action : Action) : State :=
  mkState (pagesReducer (pages state) action)
          (elementsReducer (elements state) action)
          (siteReducer (site state) action)
          (uiReducer (ui state) action).

(** The reducer that [combineReducers] runs for a key of the state. *)
Definition reducerOf (name : string) : option (value → Action → value) :=
  if decide (name = "pages") then Some pagesReducer
  else if decide (name = "elements") then Some elementsReducer
  else if decide (name = "site") then Some siteReducer
  else if decide (name = "ui") then Some uiReducer
  else None.

End Reducers.

End RootReducer.

(** ** The other routes of the backends (src/ts/server/backends/index.ts) *)
Module Routes.
Import Types Backends.

(** [ApiBackendListRequestQuery]; the [type], when present, names a backend
    type, as for the logout route. *)
Record ListQuery : Type := mkListQuery {
  li_type : option BackendType;
}.

(** What [routeListBackends] hands to [res.json]. *)
Inductive listBody : Type :=
| ListError (error : bool) (message : string)
    (* ApiResponseError *)
| BackendList (list : list BackendData).
    (* ApiBackendListResponse *)

Record listResponse : Type := respondList {
  listStatus : Z;
  listJson : listBody;
}.
Arguments respondList listStatus%_Z listJson.

(** [ApiBackendLoginRequestQuery] *)
Record LoginQuery : Type := mkLoginQuery {
  lg_backendId : option BackendId;
  lg_type : option BackendType;
  lg_options : option string;
  lg_error : option string;
}.

(** [ApiBackendLoggedInPostMessage] *)
Record PostMessage : Type := mkPostMessage {
  pm_type : string;
  pm_error : bool;
  pm_message : string;
  pm_backendId : option BackendId;
}.

(** The page sent by [sendHtml]: its status, the data that its script posts
    to the opener, and the text of its first paragraph. *)
Record page : Type := mkPage {
  pageStatus : Z;
  posted : PostMessage;
  paragraph : string;
}.

(** [sendHtml(res, message, backendId?, error?, defaultErrorCode?)] *)
Definition sendHtml (message : string) (backendId : option BackendId)
    (error : option JsError) (defaultErrorCode : option Z) : page :=
  let data := mkPostMessage "login"
                (match error with Some _ => true | None => false end)
                message backendId in
  let status := match error with
                | Some e => nullish (code e) (nullish defaultErrorCode 500%Z)
                | None => 200%Z
                end in
  mkPage status data message.

Section Session.

Variable Session : Type.
Variable missingParam : string → JsError.

(** Of several promises that reject, which one settles first is a matter of
    timing: [Promise.all] rejects with the reason of that one. *)
Variable firstRejection : list JsError → JsError.

Definition rejections {A : Type} (settled : list (result A)) : list JsError :=
  omap (λ r, match r with Throw e => Some e | Ok _ => None end) settled.

Definition fulfilled {A : Type} (settled : list (result A)) : list A :=
  omap (λ r, match r with Ok a => Some a | Throw _ => None end) settled.

(** [Promise.all(promises)]: the values in the order of the promises, or the
    first rejection. *)
Definition promiseAll {A : Type} (settled : list (result A)) : result (list A) :=
  match rejections settled with
  | [] => Ok (fulfilled settled)
  | e :: es => Throw (firstRejection (e :: es))
  end.

(** [routeListBackends(req, res)] *)
Definition routeListBackends (req : Request Session ListQuery) : listResponse :=
  match
    config ← requiredParam missingParam (app_config req)
               "Config object on express js APP";
    query ← queryOf Session req "type";
    ty ← requiredParam missingParam (li_type query) "Backend type";
    let backends := getBackends config ty in
    match promiseAll ((λ backend, toBackendData (session req) backend) <$> backends) with
    | Ok list => mret (respondList 200 (BackendList list))
    | Throw error =>
        mret (respondList (nullish (code error) 500%Z)
                (ListError true ("Error while listing backends: " +:+ error_message error)))
    end
  with
  | Ok res => res
  | Throw error =>
      respondList (nullish (code error) 400%Z)
        (ListError true ("Error in the list backends request: " +:+ error_message error))
  end.

(** [routeLoginSuccess(req, res)].  [sendHtml] does not throw here, so the
    inner [catch] is left out. *)
Definition routeLoginSuccess (req : Request Session LoginQuery) : page :=
  match
    query ← queryOf Session req "error";
    _ ← (if truthy (lg_error query)
         then Throw (Error (default "" (lg_error query)))
         else Ok ());
    backendId ← requiredParam missingParam (lg_backendId query) "Backend id";
    config ← requiredParam missingParam (app_config req)
               "Config object on express js APP";
    ty ← requiredParam missingParam (lg_type query) "Backend type";
    backend ← getBackend config (session req) ty (Some backendId);
    match backend with
    | None => Throw (Error ("Backend not found " +:+ backendId))
    | Some _ => mret (sendHtml "Logged in" (Some backendId) None None)
    end
  with
  | Ok res => res
  | Throw error =>
      sendHtml ("Error in the request " +:+ error_message error) None
        (Some error) (Some 400%Z)
  end.

End Session.

Arguments rejections {A}.
Arguments fulfilled {A}.
Arguments promiseAll firstRejection {A}.
Arguments routeListBackends {Session}.
Arguments routeLoginSuccess {Session}.

End Routes.

(** ** The command of src/ts/client/grapesjs/resize-project-panel.ts *)
Module ResizeProjectPanel.

Definition cmdResizeProjectPanel : string := "resize-project-panel".

(** [document.documentElement.style.setProperty(name, value)], on the
    properties of the style by name. *)
Definition setProperty (name value : string) (style : gmap string string)
  : gmap string string :=
  <[name := value]> style.

(** [run(editor, sender)] *)
Definition run (style : gmap string string) : gmap string string :=
  setProperty "--viewsProjectPanelWidth" "26%" style.

(** [stop(editor, sender)] *)
Definition stop (style : gmap string string) : gmap string string :=
  setProperty "--viewsProjectPanelWidth" "13%" style.

(** A command of the editor: what [run] and [stop] do to the style of the
    document. *)
Record Command : Type := mkCommand {
  cmd_run : gmap string string → gmap string string;
  cmd_stop : gmap string string → gmap string string;
}.

(** The plugin: [editor.Commands.add(cmdResizeProjectPanel, { run, stop })]. *)
Definition plugin (commands : gmap string Command) : gmap string Command :=
  <[cmdResizeProjectPanel := mkCommand run stop]> commands.

(** A call of one of the two functions of a command. *)
Inductive call : Type := Run | Stop.

Definition perform (c : Command) (k : call) (style : gmap string string)
  : gmap string string :=
  match k with
  | Run => cmd_run c style
  | Stop => cmd_stop c style
  end.

End ResizeProjectPanel.

(** ** Facts about the flux store *)
Module FluxFacts.
Import Flux.

(** The calls a listener makes when the store holds [st] and the tracker
    has left [p] in [prevState]. *)
Definition emitted (st : State) (p : option State) (l : listener) : list call :=
  match l with
  | TrackState => []
  | Notify h name cbk =>
      match p with
      | None => [mkCall h cbk VNull (get st name)]
      | Some q =>
          if strict_neq (get st name) (get q name)
          then [mkCall h cbk (get q name) (get st name)]
          else []
      end
  end.

Definition handle_of (l : listener) : option nat :=
  match l with
  | TrackState => None
  | Notify h _ _ => Some h
  end.

Definition handles (ls : list listener) : list nat := omap handle_of ls.

Definition is_notify (l : listener) : Prop := l ≠ TrackState.

Lemma run_listeners_notifiers ls w :
  Forall is_notify ls →
  run_listeners ls w =
    mkWorld (store_state w) (listeners w) (next_handle w) (prevState w) (curState w)
            (calls w ++ flat_map (emitted (store_state w) (prevState w)) ls).
Proof.
  revert w. induction ls as [|l ls IH]; intros w Hall.
  - destruct w; simpl. by rewrite app_nil_r.
  - inversion Hall as [|? ? Hl Hls]; subst.
    destruct l as [|h name cbk]; [by destruct Hl|].
    simpl run_listeners. rewrite IH by done.
    unfold notify, invoke. destruct w as [st lis nh [q|] c cs]; simpl.
    + destruct (strict_neq (get st name) (get q name)); simpl.
      * by rewrite <- app_assoc.
      * done.
    + by rewrite <- app_assoc.
Qed.

Lemma emitted_by st p l c : c ∈ emitted st p l → handle_of l = Some (by_ c).
Proof.
  destruct l as [|h name cbk]; simpl; [by intros ?%elem_of_nil|].
  destruct p as [q|]; [destruct (strict_neq _ _)|];
    intros Hc; try (by apply elem_of_nil in Hc);
    apply list_elem_of_singleton in Hc; by subst.
Qed.

Lemma filter_emitted_own st p h name cbk :
  filter (λ c, by_ c = h) (emitted st p (Notify h name cbk))
  = emitted st p (Notify h name cbk).
Proof.
  simpl. destruct p as [q|]; [destruct (strict_neq _ _)|]; try done;
    by rewrite filter_cons_True.
Qed.

Lemma filter_emitted_other st p h l :
  handle_of l ≠ Some h →
  filter (λ c, by_ c = h) (emitted st p l) = [].
Proof.
  intros Hne. apply elem_of_nil_inv. intros c [Hby Hc]%list_elem_of_filter.
  apply emitted_by in Hc. congruence.
Qed.

Lemma filter_emitted_absent st p h ls :
  h ∉ handles ls →
  filter (λ c, by_ c = h) (flat_map (emitted st p) ls) = [].
Proof.
  induction ls as [|l ls IH]; intros Hh; [done|].
  simpl. rewrite filter_app, IH.
  - rewrite app_nil_r. apply filter_emitted_other. intros Hl.
    apply Hh. unfold handles. simpl. rewrite Hl. apply list_elem_of_here.
  - intros Hin. apply Hh. unfold handles. simpl.
    destruct (handle_of l); [by apply list_elem_of_further|done].
Qed.

(** With distinct handles, the calls made under handle [h] during one round
    of notifications are those of the one listener registered under [h]. *)
Lemma filter_emitted_unique st p h name cbk ls :
  NoDup (handles ls) →
  Notify h name cbk ∈ ls →
  filter (λ c, by_ c = h) (flat_map (emitted st p) ls)
  = emitted st p (Notify h name cbk).
Proof.
  induction ls as [|l ls IH]; intros Hnd Hin; [by apply elem_of_nil in Hin|].
  simpl flat_map. rewrite filter_app.
  apply elem_of_cons in Hin as [<-|Hin].
  - unfold handles in Hnd. simpl in Hnd. apply NoDup_cons in Hnd as [Hh _].
    rewrite filter_emitted_own, (filter_emitted_absent _ _ _ _ Hh).
    by rewrite app_nil_r.
  - assert (h ∈ handles ls) as Hh.
    { unfold handles. apply list_elem_of_omap. by exists (Notify h name cbk). }
    destruct l as [|h' n' c'].
    + rewrite IH; done.
    + unfold handles in Hnd. simpl in Hnd. apply NoDup_cons in Hnd as [Hh' Hnd].
      rewrite filter_emitted_other, IH; [done..|].
      simpl. intros [= ->]. by apply Hh'.
Qed.

(** What holds of the module state whatever its clients did. *)
Record inv (w : world) : Prop := mkInv {
  inv_head : ∃ ns, listeners w = TrackState :: ns ∧ Forall is_notify ns;
  inv_nodup : NoDup (handles (listeners w));
  inv_bound : Forall (λ h, h < next_handle w) (handles (listeners w));
  inv_cur : curState w = None ∨ curState w = Some (store_state w);
}.

Section Store.

Variable Action : Type.
Variable reducer : State → Action → State.

Abbreviation dispatch := (dispatch Action reducer).
Abbreviation run := (run Action reducer).
Abbreviation run_op := (run_op Action reducer).

Lemma inv_init s0 : inv (init s0).
Proof.
  split; simpl.
  - exists []. by split.
  - apply NoDup_nil_2.
  - apply Forall_nil_2.
  - by left.
Qed.

(** One dispatch, seen from a state in which the tracker comes first: the
    tracker shifts [curState] into [prevState], then every subscription
    compares its slice against it. *)
Lemma dispatch_unfold a w ns :
  listeners w = TrackState :: ns → Forall is_notify ns →
  dispatch a w =
    mkWorld (reducer (store_state w) a) (listeners w) (next_handle w)
            (curState w) (Some (reducer (store_state w) a))
            (calls w ++ flat_map (emitted (reducer (store_state w) a) (curState w)) ns).
Proof.
  intros Hl Hns. unfold dispatch. rewrite Hl at 1. simpl run_listeners.
  rewrite run_listeners_notifiers by done. simpl. by rewrite Hl.
Qed.

Lemma handles_subscribe ls h name cbk :
  handles (ls ++ [Notify h name cbk]) = handles ls ++ [h].
Proof. unfold handles. by rewrite omap_app. Qed.

Lemma inv_subscribe name cbk w :
  inv w → inv (subscribe (λ h, Notify h name cbk) w).
Proof.
  intros [[ns [Hl Hns]] Hnd Hb Hc]. split; simpl.
  - exists (ns ++ [Notify (next_handle w) name cbk]). rewrite Hl. split; [done|].
    apply Forall_app. split; [done|]. by apply Forall_singleton.
  - rewrite handles_subscribe. apply NoDup_app. split_and!; [done| |apply NoDup_singleton].
    intros h Hh ->%list_elem_of_singleton.
    rewrite Forall_forall in Hb. specialize (Hb _ Hh). lia.
  - rewrite handles_subscribe. apply Forall_app. split.
    + eapply Forall_impl; [done|]. simpl. lia.
    + apply Forall_singleton. lia.
  - done.
Qed.

Lemma handles_filter_sublist (P : listener → Prop) `{∀ l, Decision (P l)} ls :
  handles (filter P ls) `sublist_of` handles ls.
Proof.
  unfold handles. induction ls as [|l ls IH]; [done|].
  rewrite filter_cons. destruct (decide (P l)); simpl.
  - destruct (handle_of l); [by apply sublist_skip|done].
  - destruct (handle_of l); [by apply sublist_cons|done].
Qed.

Lemma inv_unsubscribe h w : inv w → inv (unsubscribe h w).
Proof.
  intros [[ns [Hl Hns]] Hnd Hb Hc]. split; simpl.
  - rewrite Hl, filter_cons_True by done. eexists. split; [done|].
    apply Forall_forall. intros l [_ Hin]%list_elem_of_filter.
    rewrite Forall_forall in Hns. by apply Hns.
  - exact (sublist_NoDup _ _ Hnd (handles_filter_sublist _ _)).
  - apply Forall_forall. intros k Hk. rewrite Forall_forall in Hb. apply Hb.
    eapply elem_of_sublist; [done|apply handles_filter_sublist].
  - done.
Qed.

Lemma inv_dispatch a w : inv w → inv (dispatch a w).
Proof.
  intros [[ns [Hl Hns]] Hnd Hb Hc].
  rewrite (dispatch_unfold a w ns) by done. split; simpl; eauto.
Qed.

Lemma inv_run_op o w : inv w → inv (run_op o w).
Proof.
  intros Hw. destruct o as [name cbk|name cbk|h|a]; simpl.
  - by apply inv_subscribe.
  - by apply inv_subscribe.
  - by apply inv_unsubscribe.
  - by apply inv_dispatch.
Qed.

Lemma run_snoc ops o s0 : run (ops ++ [o]) s0 = run_op o (run ops s0).
Proof. unfold run. by rewrite foldl_app. Qed.

Lemma inv_run ops s0 : inv (run ops s0).
Proof.
  induction ops as [|o ops IH] using rev_ind; [apply inv_init|].
  rewrite run_snoc. by apply inv_run_op.
Qed.

(** [curState] is unset until the first dispatch, and from then on it is the
    state of the store. *)
Lemma curState_run ops s0 :
  curState (run ops s0)
  = if existsb is_dispatch ops then Some (store_state (run ops s0)) else None.
Proof.
  induction ops as [|o ops IH] using rev_ind; [done|].
  rewrite run_snoc, existsb_app. simpl existsb. rewrite orb_false_r.
  destruct o as [name cbk|name cbk|h|a]; simpl;
    try (rewrite orb_false_r; exact IH).
  rewrite orb_true_r.
  destruct (inv_run ops s0) as [[ns [Hl Hns]] _ _ _].
  by rewrite (dispatch_unfold a _ ns).
Qed.

(** The listener registered under [h] makes no call during the dispatch of
    [a] from [w]. *)
Definition silent (h : nat) (a : Action) (w : world) : Prop :=
  ∃ new, calls (dispatch a w) = calls w ++ new
         ∧ filter (λ c, by_ c = h) new = [].

(** The listener registered under [h] makes exactly the call [c], once,
    during the dispatch of [a] from [w]. *)
Definition called_once (h : nat) (c : call) (a : Action) (w : world) : Prop :=
  ∃ new, calls (dispatch a w) = calls w ++ new
         ∧ filter (λ c, by_ c = h) new = [c].

(** The calls of one subscription during one dispatch. *)
Lemma dispatch_calls ops s0 h name cbk a :
  let w := run ops s0 in
  Notify h name cbk ∈ listeners w →
  ∃ new, calls (dispatch a w) = calls w ++ new
         ∧ filter (λ c, by_ c = h) new
           = emitted (reducer (store_state w) a) (curState w) (Notify h name cbk).
Proof.
  intros w Hin.
  destruct (inv_run ops s0) as [[ns [Hl Hns]] Hnd _ _]. fold w in Hl, Hnd.
  rewrite (dispatch_unfold a w ns) by done. simpl.
  eexists. split; [done|].
  rewrite Hl in Hin, Hnd. apply elem_of_cons in Hin as [?|Hin]; [done|].
  by apply filter_emitted_unique.
Qed.

(** C1, as amended: once a dispatch has taken place since the module was
    loaded, a dispatch that leaves the slice [A] of the state untouched
    (same reference) makes no call to the callback of a subscription on [A],
    whether it was made with [subscribeToCrud] or with [subscribeTo]. *)
Theorem no_cross_slice_notification ops s0 h A cbk a :
  let w := run ops s0 in
  Notify h A cbk ∈ listeners w →
  existsb is_dispatch ops = true →
  get (reducer (store_state w) a) A = get (store_state w) A →
  silent h a w.
Proof.
  intros w Hin Hd Hsame. subst w.
  destruct (dispatch_calls ops s0 h A cbk a Hin) as (new & Hcalls & Hnew).
  exists new. split; [done|]. rewrite Hnew.
  rewrite (curState_run ops s0), Hd. simpl.
  unfold strict_neq. rewrite Hsame. by rewrite bool_decide_eq_false_2 by auto.
Qed.

(** C2, as amended: a dispatch that changes the slice [A] calls the callback
    of a subscription on [A] exactly once, with the new slice as [next].
    Once a dispatch has taken place since the module was loaded, [prev] is
    the slice as it was just before this dispatch and differs from [next];
    on the first dispatch [prev] is [null]. *)
Theorem changed_slice_notified_once ops s0 h A cbk a :
  let w := run ops s0 in
  let before := get (store_state w) A in
  let after := get (reducer (store_state w) a) A in
  Notify h A cbk ∈ listeners w →
  after ≠ before →
  if existsb is_dispatch ops
  then called_once h (mkCall h cbk before after) a w
  else called_once h (mkCall h cbk VNull after) a w.
Proof.
  intros w before after Hin Hchg. subst w before after.
  destruct (dispatch_calls ops s0 h A cbk a Hin) as (new & Hcalls & Hnew).
  rewrite (curState_run ops s0) in Hnew.
  destruct (existsb is_dispatch ops); exists new; (split; [done|]);
    rewrite Hnew; simpl; [|done].
  unfold strict_neq. by rewrite bool_decide_eq_true_2.
Qed.

End Store.

Arguments silent {Action} reducer h a w.
Arguments called_once {Action} reducer h c a w.

(** *** Concrete runs *)

(** A store whose actions carry the next state. *)
Definition set_state (_ : State) (a : State) : State := a.

Definition s_init : State := mkState (VRef 1) (VRef 2) (VRef 3) (VRef 4).
Definition s_elements : State := mkState (VRef 1) (VRef 5) (VRef 3) (VRef 4).
Definition s_pages : State := mkState (VRef 6) (VRef 5) (VRef 3) (VRef 4).

(** C1, witness: after a first dispatch, a dispatch on the elements leaves a
    subscriber on the pages alone. *)
Lemma no_cross_slice_notification_witness :
  silent set_state 0 s_elements
    (run State set_state [SubscribeToCrud "pages" 7; Dispatch s_init] s_init).
Proof.
  apply (no_cross_slice_notification State set_state
           [SubscribeToCrud "pages" 7; Dispatch s_init] s_init 0 "pages" 7 s_elements).
  - vm_compute. apply list_elem_of_further, list_elem_of_here.
  - reflexivity.
  - reflexivity.
Defined.

(** C2, witness: after a first dispatch, a dispatch on the pages calls the
    subscriber on the pages once, with the old and the new slice. *)
Lemma changed_slice_notified_once_witness :
  called_once set_state 0 (mkCall 0 7 (VRef 1) (VRef 6)) s_pages
    (run State set_state [SubscribeTo "pages" 7; Dispatch s_elements] s_init).
Proof.
  apply (changed_slice_notified_once State set_state
           [SubscribeTo "pages" 7; Dispatch s_elements] s_init 0 "pages" 7 s_pages).
  - vm_compute. apply list_elem_of_further, list_elem_of_here.
  - vm_compute. discriminate.
Defined.

(** C1, counterexample: the first dispatch after the module is loaded only
    replaces the elements, the pages keep their reference, and the callback
    subscribed to the pages is called all the same, with [null] as [prev]. *)
Lemma first_dispatch_crosses_slices :
  let w := run State set_state [SubscribeToCrud "pages" 7] s_init in
  Notify 0 "pages" 7 ∈ listeners w
  ∧ get (set_state (store_state w) s_elements) "pages" = get (store_state w) "pages"
  ∧ calls (dispatch State set_state s_elements w)
    = calls w ++ [mkCall 0 7 VNull (VRef 1)]
  ∧ ¬ silent set_state 0 s_elements w.
Proof.
  split_and!.
  - vm_compute. apply list_elem_of_further, list_elem_of_here.
  - reflexivity.
  - reflexivity.
  - intros (new & Hcalls & Hnew).
    change (calls (dispatch State set_state s_elements
                     (run State set_state [SubscribeToCrud "pages" 7] s_init)))
      with ([] ++ [mkCall 0 7 VNull (VRef 1)]) in Hcalls.
    apply app_inv_head in Hcalls. subst new. discriminate Hnew.
Qed.

(** C2, counterexample: the first dispatch after the module is loaded
    replaces the pages; the callback subscribed to the pages receives [null]
    as [prev], not the slice as it was before the dispatch. *)
Lemma first_dispatch_prev_is_null :
  let w := run State set_state [SubscribeToCrud "pages" 7] s_init in
  let before := get (store_state w) "pages" in
  let after := get (set_state (store_state w) s_pages) "pages" in
  Notify 0 "pages" 7 ∈ listeners w
  ∧ after ≠ before
  ∧ calls (dispatch State set_state s_pages w)
    = calls w ++ [mkCall 0 7 VNull (VRef 6)]
  ∧ ¬ called_once set_state 0 (mkCall 0 7 before after) s_pages w.
Proof.
  split_and!.
  - vm_compute. apply list_elem_of_further, list_elem_of_here.
  - vm_compute. discriminate.
  - reflexivity.
  - intros (new & Hcalls & Hnew).
    change (calls (dispatch State set_state s_pages
                     (run State set_state [SubscribeToCrud "pages" 7] s_init)))
      with ([] ++ [mkCall 0 7 VNull (VRef 6)]) in Hcalls.
    apply app_inv_head in Hcalls. subst new. discriminate Hnew.
Qed.

End FluxFacts.

(** ** Facts about the backends *)
Module BackendsFacts.
Import Types Backends.

(** [r] is the first element of [l] that satisfies [P], if there is one. *)
Definition first_such {A : Type} (P : A → Prop) (l : list A) (r : option A) : Prop :=
  match r with
  | Some b => ∃ pre post, l = pre ++ b :: post ∧ P b ∧ Forall (λ x, ¬ P x) pre
  | None => Forall (λ x, ¬ P x) l
  end.

Lemma find_first_such {A : Type} (f : A → bool) (l : list A) :
  first_such (λ x, f x = true) l (List.find f l).
Proof.
  induction l as [|x l IH]; simpl; [by apply Forall_nil_2|].
  destruct (f x) eqn:Hx.
  - exists [], l. by split_and!.
  - destruct (List.find f l) as [b|]; simpl in *.
    + destruct IH as (pre & post & -> & Hb & Hpre).
      exists (x :: pre), post. split_and!; [done..|].
      apply Forall_cons. split; [congruence|done].
    + apply Forall_cons. split; [congruence|done].
Qed.

Section Resolution.

Context {Session : Type}.
Implicit Types (config : ServerConfig Session) (session : BackendSession Session).
Implicit Types (b backend : Backend Session) (backends : list (Backend Session)).

(** The backend says that nobody is logged in on this session. *)
Definition loggedOut session b : Prop := isLoggedIn b session = Ok false.

Lemma firstLoggedIn_found session pre b post :
  Forall (loggedOut session) pre → isLoggedIn b session = Ok true →
  firstLoggedIn session (pre ++ b :: post) = Ok (Some b).
Proof.
  intros Hpre Hb. induction Hpre as [|x pre Hx _ IH]; simpl.
  - by rewrite Hb.
  - by rewrite Hx.
Qed.

Lemma firstLoggedIn_none session backends :
  Forall (loggedOut session) backends → firstLoggedIn session backends = Ok None.
Proof.
  intros Hall. induction Hall as [|x l Hx _ IH]; simpl; [done|]. by rewrite Hx.
Qed.

Lemma firstLoggedIn_throw session pre b post e :
  Forall (loggedOut session) pre → isLoggedIn b session = Throw e →
  firstLoggedIn session (pre ++ b :: post) = Throw e.
Proof.
  intros Hpre Hb. induction Hpre as [|x pre Hx _ IH]; simpl.
  - by rewrite Hb.
  - by rewrite Hx.
Qed.

(** The backend with this id and of this type. *)
Definition is_backend (bid : BackendId) (ty : BackendType) b : Prop :=
  id b = bid ∧ type b = ty.

(** C3, as amended: the three tiers of [getBackend].  (1) With an explicit
    id that is not the empty string, the answer is the first backend of the
    list with that id and of that type, or not-found when there is none,
    whatever the backends say about the session.  Otherwise, that is
    without an explicit id or with the empty string for one: (2) the first
    backend that reports the session logged in, all backends before it
    reporting it logged out; (3) the first backend of the list, or
    not-found on an empty list, when every backend reports the session
    logged out.  A failure of [isLoggedIn] met during the scan of (2) is the
    failure of [getBackend]. *)
Theorem getBackend_resolution config session ty backendId :
  let backends := getBackends config ty in
  (∀ bid, backendId = Some bid → bid ≠ "" →
     ∃ r, getBackend config session ty backendId = Ok r
          ∧ first_such (is_backend bid ty) backends r)
  ∧ (backendId = None ∨ backendId = Some "" →
     (∀ pre b post,
        backends = pre ++ b :: post →
        Forall (loggedOut session) pre → isLoggedIn b session = Ok true →
        getBackend config session ty backendId = Ok (Some b))
     ∧ (Forall (loggedOut session) backends →
        getBackend config session ty backendId = Ok (head backends))
     ∧ (∀ pre b post e,
        backends = pre ++ b :: post →
        Forall (loggedOut session) pre → isLoggedIn b session = Throw e →
        getBackend config session ty backendId = Throw e)).
Proof.
  intros backends. split.
  - intros bid -> Hne. unfold getBackend. simpl truthy.
    rewrite bool_decide_eq_false_2 by done. simpl. eexists. split; [done|].
    fold backends.
    pose proof (find_first_such
      (λ s : Backend Session,
         bool_decide (Some (id s) = Some bid) && bool_decide (type s = ty)) backends) as H.
    assert (∀ s : Backend Session,
      bool_decide (Some (id s) = Some bid) && bool_decide (type s = ty) = true
      ↔ is_backend bid ty s) as Heq.
    { intros s. rewrite andb_true_iff, !bool_decide_eq_true. unfold is_backend.
      split; [intros [[= H1] H2]|intros [H1 H2]]; split; try done. by f_equal. }
    destruct (List.find _ backends) as [b|]; simpl in *.
    + destruct H as (pre & post & Hl & Hb & Hpre). exists pre, post.
      split_and!; [done|by apply Heq|].
      eapply Forall_impl; [exact Hpre|]. intros x Hx Hx'. by apply Hx, Heq.
    + eapply Forall_impl; [exact H|]. intros x Hx Hx'. by apply Hx, Heq.
  - intros Hfalsy.
    assert (truthy backendId = false) as Ht by (by destruct Hfalsy as [->| ->]).
    unfold getBackend. rewrite Ht. fold backends. split_and!.
    + intros pre b post -> Hpre Hb. by rewrite firstLoggedIn_found.
    + intros Hall. by rewrite firstLoggedIn_none.
    + intros pre b post e -> Hpre Hb. by rewrite (firstLoggedIn_throw _ _ _ _ e).
Qed.

(** C9: the descriptor built by [toBackendData] depends on the session only
    through what [isLoggedIn] and [getAuthorizeURL] answer for it, and when
    it is built it holds the static fields of the backend and these two
    answers. *)
Theorem toBackendData_reads_two_answers b (s1 s2 : BackendSession Session) :
  isLoggedIn b s1 = isLoggedIn b s2 →
  getAuthorizeURL b s1 = getAuthorizeURL b s2 →
  toBackendData s1 b = toBackendData s2 b
  ∧ ∀ d, toBackendData s1 b = Ok d →
      d = mkBackendData (id b) (type b) (displayName b) (icon b)
            (to_boolean (disableLogout b)) (bd_isLoggedIn d) (authUrl d)
      ∧ isLoggedIn b s1 = Ok (bd_isLoggedIn d)
      ∧ getAuthorizeURL b s1 = Ok (authUrl d).
Proof.
  intros Hl Hu. unfold toBackendData. rewrite <- Hl, <- Hu. split; [done|].
  intros d. destruct (isLoggedIn b s1) as [li|e]; simpl; [|done].
  destruct (getAuthorizeURL b s1) as [u|e]; simpl; [|done].
  by intros [= <-].
Qed.

(** *** The routes *)

Variable missingParam : string → JsError.

Abbreviation routeLoginStatus := (Backends.routeLoginStatus missingParam).
Abbreviation routeLogout := (Backends.routeLogout missingParam).

#[local] Arguments getBackend : simpl never.
#[local] Arguments toBackendData : simpl never.
#[local] Arguments siteMeta : simpl never.

Ltac run_route :=
  unfold Backends.routeLoginStatus, Backends.routeLogout, queryOf, requiredParam,
    mbind, result_bind, mret, result_ret, nullish in *;
  simpl in *.

Lemma routeLoginStatus_success (req : Request Session LoginStatusQuery) cfg q s b d u m :
  app_config req = Some cfg → query req = Some q → session req = Some s →
  getBackend cfg (Some s) (ls_type q) (ls_backendId q) = Ok (Some b) →
  isLoggedIn b (Some s) = Ok true →
  toBackendData (Some s) b = Ok d →
  getUserData b (Some s) = Ok u →
  siteMeta (Some s) b (ls_id q) = Ok m →
  routeLoginStatus req = respond 200 (LoginStatusBody d u m).
Proof.
  intros Hc Hq Hs Hb Hl Hd Hu Hm. run_route.
  by rewrite Hc, Hq, Hs, Hb, Hl, Hd, Hu, Hm.
Qed.

Lemma routeLoginStatus_body_inv (req : Request Session LoginStatusQuery) d u m :
  json (routeLoginStatus req) = LoginStatusBody d u m →
  ∃ cfg q s b,
    app_config req = Some cfg ∧ query req = Some q ∧ session req = Some s
    ∧ getBackend cfg (Some s) (ls_type q) (ls_backendId q) = Ok (Some b)
    ∧ isLoggedIn b (Some s) = Ok true
    ∧ toBackendData (Some s) b = Ok d
    ∧ getUserData b (Some s) = Ok u
    ∧ siteMeta (Some s) b (ls_id q) = Ok m.
Proof.
  run_route.
  destruct (app_config req) as [cfg|]; [|done].
  destruct (query req) as [q|]; [|done].
  destruct (session req) as [s|]; [|done].
  destruct (getBackend cfg (Some s) (ls_type q) (ls_backendId q)) as [[b|]|e] eqn:Hb;
    [|done..].
  destruct (isLoggedIn b (Some s)) as [[|]|e] eqn:Hl; [|done..]. simpl.
  destruct (toBackendData (Some s) b) as [d'|e] eqn:Hd; [|done].
  destruct (getUserData b (Some s)) as [u'|e] eqn:Hu; [|done].
  destruct (siteMeta (Some s) b (ls_id q)) as [m'|e] eqn:Hm; [|done].
  simpl. intros [= -> -> ->]. by exists cfg, q, s, b.
Qed.

(** C4, as amended.  On the login-status route, with config, query and
    session present: 500 when no backend is resolved, 401 when the resolved
    backend reports the session logged out, 200 on success.  On the logout
    route, with backend id, config and type present: 400 (not 500) when no
    backend is resolved, and 200 when the logout call succeeds, without any
    look at the login state.  When the validation error carries the code
    400, a parameter that [requiredParam] finds missing gives 400 on both
    routes.  Every response with another status than 200 has [error: true]
    and a message. *)
Theorem route_status_codes :
  (∀ (req : Request Session LoginStatusQuery) cfg q s,
     app_config req = Some cfg → query req = Some q → session req = Some s →
     let resolved := getBackend cfg (Some s) (ls_type q) (ls_backendId q) in
     (resolved = Ok None →
      routeLoginStatus req = respond 500 (ErrorBody true "No backend found"))
     ∧ (∀ b, resolved = Ok (Some b) → isLoggedIn b (Some s) = Ok false →
        routeLoginStatus req = respond 401 (ErrorBody true "Not logged in"))
     ∧ (∀ b d u m, resolved = Ok (Some b) → isLoggedIn b (Some s) = Ok true →
        toBackendData (Some s) b = Ok d → getUserData b (Some s) = Ok u →
        siteMeta (Some s) b (ls_id q) = Ok m →
        routeLoginStatus req = respond 200 (LoginStatusBody d u m)))
  ∧ (∀ (req : Request Session LogoutQuery) cfg q bid ty,
     app_config req = Some cfg → query req = Some q →
     lo_backendId q = Some bid → lo_type q = Some ty →
     let resolved := getBackend cfg (session req) ty (Some bid) in
     (resolved = Ok None →
      routeLogout req
      = respond 400
          (ErrorBody true
             ("Error in the logout request: "
              +:+ ("Backend not found " +:+ bid +:+ " " +:+ BackendType_name ty))))
     ∧ (∀ b, resolved = Ok (Some b) → logout b (session req) = Ok () →
        routeLogout req = respond 200 (ErrorBody false "OK")))
  ∧ ((∀ name, code (missingParam name) = Some 400%Z) →
     (∀ req : Request Session LoginStatusQuery,
        app_config req = None ∨ query req = None ∨ session req = None →
        statusCode (routeLoginStatus req) = 400%Z)
     ∧ (∀ (req : Request Session LogoutQuery) q,
        query req = Some q →
        lo_backendId q = None ∨ app_config req = None ∨ lo_type q = None →
        statusCode (routeLogout req) = 400%Z))
  ∧ (∀ req : Request Session LoginStatusQuery,
       statusCode (routeLoginStatus req) ≠ 200%Z →
       ∃ msg, json (routeLoginStatus req) = ErrorBody true msg)
  ∧ (∀ req : Request Session LogoutQuery,
       statusCode (routeLogout req) ≠ 200%Z →
       ∃ msg, json (routeLogout req) = ErrorBody true msg).
Proof.
  split_and!.
  - intros req cfg q s Hc Hq Hs resolved. subst resolved. split_and!.
    + intros Hb. run_route. by rewrite Hc, Hq, Hs, Hb.
    + intros b Hb Hl. run_route. by rewrite Hc, Hq, Hs, Hb, Hl.
    + intros b d u m. by apply routeLoginStatus_success.
  - intros req cfg q bid ty Hc Hq Hbid Hty resolved. subst resolved. split_and!.
    + intros Hb. run_route. by rewrite Hq, Hbid, Hc, Hty, Hb.
    + intros b Hb Hl. run_route. by rewrite Hq, Hbid, Hc, Hty, Hb, Hl.
  - intros Hcode. split.
    + intros req Hmiss. run_route.
      destruct (app_config req); [|by rewrite Hcode].
      destruct (query req); [|by rewrite Hcode].
      destruct (session req); [|by rewrite Hcode].
      by destruct Hmiss as [?|[?|?]].
    + intros req q Hq Hmiss. run_route. rewrite Hq.
      destruct (lo_backendId q); [|by rewrite Hcode].
      destruct (app_config req); [|by rewrite Hcode].
      destruct (lo_type q); [|by rewrite Hcode].
      by destruct Hmiss as [?|[?|?]].
  - intros req. run_route.
    repeat case_match; simplify_eq/=; intros Hne; try done; by eexists.
  - intros req. run_route.
    repeat case_match; simplify_eq/=; intros Hne; try done; by eexists.
Qed.

(** C10: a login-status response that carries backend and user has its
    [websiteMeta] populated exactly when the request supplies a website id
    (not the empty string) and the resolved backend is of type STORAGE, and
    then with what [getSiteMeta] answered; for a HOSTING backend or without
    a website id the response is still sent, with status 200, backend and
    user, and a falsy [websiteMeta]. *)
Theorem websiteMeta_only_for_storage :
  (∀ (req : Request Session LoginStatusQuery) d u m,
     json (routeLoginStatus req) = LoginStatusBody d u m →
     ∃ cfg q s b,
       app_config req = Some cfg ∧ query req = Some q ∧ session req = Some s
       ∧ getBackend cfg (Some s) (ls_type q) (ls_backendId q) = Ok (Some b)
       ∧ toBackendData (Some s) b = Ok d
       ∧ getUserData b (Some s) = Ok u
       ∧ (populated m = true ↔ truthy (ls_id q) = true ∧ type b = STORAGE)
       ∧ (∀ meta, m = MetaOf meta →
            ∃ wid, ls_id q = Some wid ∧ getSiteMeta b (Some s) wid = Ok meta))
  ∧ (∀ (req : Request Session LoginStatusQuery) cfg q s b d u,
       app_config req = Some cfg → query req = Some q → session req = Some s →
       getBackend cfg (Some s) (ls_type q) (ls_backendId q) = Ok (Some b) →
       isLoggedIn b (Some s) = Ok true →
       toBackendData (Some s) b = Ok d → getUserData b (Some s) = Ok u →
       type b = HOSTING ∨ truthy (ls_id q) = false →
       ∃ m, routeLoginStatus req = respond 200 (LoginStatusBody d u m)
            ∧ populated m = false).
Proof.
  split.
  - intros req d u m Hbody.
    destruct (routeLoginStatus_body_inv req d u m Hbody)
      as (cfg & q & s & b & Hc & Hq & Hs & Hb & Hl & Hd & Hu & Hm).
    exists cfg, q, s, b. split_and!; try done.
    + unfold siteMeta in Hm. destruct (ls_id q) as [wid|]; simpl.
      * destruct (bool_decide (wid = "")) eqn:Hw; simpl.
        { injection Hm as <-. split; [done|]. by intros [? _]. }
        destruct (bool_decide (type b = STORAGE)) eqn:Ht.
        -- apply bool_decide_eq_true in Ht.
           unfold mbind, result_bind, mret, result_ret in Hm.
           destruct (getSiteMeta b (Some s) wid); by simplify_eq/=.
        -- apply bool_decide_eq_false in Ht. injection Hm as <-.
           split; [done|]. by intros [_ ?].
      * injection Hm as <-. split; [done|]. by intros [? _].
    + intros meta ->. unfold siteMeta in Hm. destruct (ls_id q) as [wid|]; [|done].
      exists wid. split; [done|].
      destruct (bool_decide (wid = "")); [done|].
      destruct (bool_decide (type b = STORAGE)); [|done].
      unfold mbind, result_bind, mret, result_ret in Hm.
      destruct (getSiteMeta b (Some s) wid); by simplify_eq/=.
  - intros req cfg q s b d u Hc Hq Hs Hb Hl Hd Hu Hor.
    assert (∃ m, siteMeta (Some s) b (ls_id q) = Ok m ∧ populated m = false)
      as (m & Hm & Hp).
    { unfold siteMeta. destruct (ls_id q) as [wid|]; [|by eexists].
      destruct (bool_decide (wid = "")) eqn:Hw; [by eexists|].
      destruct Hor as [Ht|Ht]; [|simpl in Ht; by rewrite Hw in Ht].
      rewrite bool_decide_eq_false_2 by (by rewrite Ht). by eexists. }
    exists m. split; [|done]. by eapply routeLoginStatus_success.
Qed.

End Resolution.

(** *** A concrete registry *)

Definition someUser : BackendUser := mkBackendUser "alice" None None None.

(** A backend on which the users [users] are logged in; a session is the
    name of its user. *)
Definition backendFor (bid : string) (ty : BackendType) (users : list string)
  : Backend string :=
  mkBackend bid bid "icon.svg" None ty
    (λ _ _, Ok None)
    (λ _, Ok (Some ("/auth/" +:+ bid)))
    (λ session, Ok (match session with
                    | Some user => bool_decide (user ∈ users)
                    | None => false
                    end))
    (λ _, Ok ())
    (λ _, Ok someUser)
    (λ _ _, Ok ())
    (λ _ wid, Ok (mkWebsiteMeta wid 0 0 None)).

Definition fs : Backend string := backendFor "fs" STORAGE [].
Definition gitlab : Backend string := backendFor "gitlab" STORAGE ["alice"].
Definition download : Backend string := backendFor "download" HOSTING ["alice"; "bob"].

Definition registry : ServerConfig string :=
  mkServerConfig (λ ty, match ty with
                        | STORAGE => [fs; gitlab]
                        | HOSTING => [download]
                        end).

(** A validation error that carries the code 400. *)
Definition badRequest (name : string) : JsError :=
  mkError (Some 400%Z) ("Missing required parameter: " +:+ name).

Definition logoutOf (bid : string) (user : string) : Request string LogoutQuery :=
  mkRequest (Some registry) (Some (mkLogoutQuery (Some bid) (Some STORAGE))) (Some user).

Definition statusOf (ty : BackendType) (wid : option string) (user : string)
  : Request string LoginStatusQuery :=
  mkRequest (Some registry) (Some (mkLoginStatusQuery wid None ty)) (Some user).

(** C3, witness: without an explicit id, alice gets the first storage on
    which she is logged in. *)
Lemma getBackend_resolution_witness :
  getBackend registry (Some "alice") STORAGE None = Ok (Some gitlab).
Proof.
  refine (proj1 (proj2 (getBackend_resolution registry (Some "alice") STORAGE None)
                   (or_introl eq_refl)) [fs] gitlab [] eq_refl _ eq_refl).
  apply Forall_cons. split; [reflexivity|apply Forall_nil_2].
Defined.

(** C3, counterexample: the empty string given as explicit id.  No storage
    has the empty id, so tier (1) as stated answers not-found; the code
    falls through to the later tiers and answers the first storage. *)
Lemma empty_id_falls_through :
  getBackend registry (Some "bob") STORAGE (Some "") = Ok (Some fs)
  ∧ ¬ ∃ r, getBackend registry (Some "bob") STORAGE (Some "") = Ok r
           ∧ first_such (is_backend "" STORAGE) (getBackends registry STORAGE) r.
Proof.
  split; [reflexivity|].
  intros (r & Hr & Hfirst).
  change (getBackend registry (Some "bob") STORAGE (Some "")) with (Ok (Some fs)) in Hr.
  injection Hr as <-. destruct Hfirst as (pre & post & _ & [Hid _] & _).
  discriminate Hid.
Qed.

(** C9, witness: alice and bob are both logged in on the download backend,
    which shows them the same authorization URL: same descriptor. *)
Lemma toBackendData_reads_two_answers_witness :
  toBackendData (Some "alice") download = toBackendData (Some "bob") download.
Proof.
  exact (proj1 (toBackendData_reads_two_answers download (Some "alice") (Some "bob")
                  eq_refl eq_refl)).
Defined.

(** C4, witness: logging out of a storage that is not registered. *)
Lemma route_status_codes_witness :
  routeLogout badRequest (logoutOf "dropbox" "alice")
  = respond 400
      (ErrorBody true "Error in the logout request: Backend not found dropbox STORAGE").
Proof.
  exact (proj1 (proj1 (proj2 (route_status_codes badRequest))
                  (logoutOf "dropbox" "alice") registry
                  (mkLogoutQuery (Some "dropbox") (Some STORAGE)) "dropbox" STORAGE
                  eq_refl eq_refl eq_refl eq_refl) eq_refl).
Defined.

(** C4, counterexample: on the logout route, a request for a backend that
    does not exist is answered 400, not 500; and a request from a session
    that the resolved backend reports logged out is answered 200, not 401. *)
Lemma logout_status_codes :
  getBackend registry (Some "alice") STORAGE (Some "dropbox") = Ok None
  ∧ statusCode (routeLogout badRequest (logoutOf "dropbox" "alice")) = 400%Z
  ∧ statusCode (routeLogout badRequest (logoutOf "dropbox" "alice")) ≠ 500%Z
  ∧ getBackend registry (Some "bob") STORAGE (Some "fs") = Ok (Some fs)
  ∧ isLoggedIn fs (Some "bob") = Ok false
  ∧ statusCode (routeLogout badRequest (logoutOf "fs" "bob")) = 200%Z
  ∧ statusCode (routeLogout badRequest (logoutOf "fs" "bob")) ≠ 401%Z.
Proof. split_and!; try reflexivity; vm_compute; discriminate. Qed.

(** C10, witness: the login status of alice on the hosting backend, asked
    with a website id, comes without website metadata. *)
Lemma websiteMeta_only_for_storage_witness :
  ∃ m, routeLoginStatus badRequest (statusOf HOSTING (Some "site") "alice")
       = respond 200
           (LoginStatusBody
              (mkBackendData "download" HOSTING "download" "icon.svg" false true
                 (Some "/auth/download"))
              someUser m)
       ∧ populated m = false.
Proof.
  exact (proj2 (websiteMeta_only_for_storage badRequest)
           (statusOf HOSTING (Some "site") "alice") registry
           (mkLoginStatusQuery (Some "site") None HOSTING) "alice" download _ _
           eq_refl eq_refl eq_refl eq_refl eq_refl eq_refl eq_refl
           (or_introl eq_refl)).
Defined.

End BackendsFacts.

(** ** Facts about the entity store *)
Module CrudFacts.
Import Crud.

Lemma length_run_of_x n : String.length (run_of_x n) = n.
Proof.
  induction n as [|n IH]; [done|].
  cbn [run_of_x]. unfold String.app. cbn. by f_equal.
Qed.

(** The generator never hands out an id that is in use: its id is longer
    than every one of them. *)
Lemma freshId_fresh (used : list string) : freshId used ∉ used.
Proof.
  intros Hin.
  assert (String.length (freshId used) ∈ String.length <$> used) as Hlen
    by (by apply list_elem_of_fmap_2).
  apply max_list_elem_of_le in Hlen.
  unfold freshId in Hlen. rewrite length_run_of_x in Hlen. lia.
Qed.

Section EntityStore.

Variable Fields : Type.

Abbreviation create := (@Crud.create Fields).

Lemma ids_snoc (collection : list (Entity Fields)) stored :
  ids (collection ++ [stored]) = ids collection ++ [id stored].
Proof. unfold ids. by rewrite fmap_app. Qed.

Lemma NoDup_snoc_fresh (l : list string) (x : string) :
  NoDup l → x ∉ l → NoDup (l ++ [x]).
Proof.
  intros Hl Hx. apply NoDup_app. split_and!; [done| |apply NoDup_singleton].
  intros y Hy ->%list_elem_of_singleton. by apply Hx.
Qed.

(** C5: without leave to set the id, [create] ignores the id of the caller
    and stores the entity at the end of the collection under a generated id
    that no stored entity has; with leave, an id that is already present
    fails with [DuplicateIdError]; whenever [create] succeeds the ids stay
    pairwise distinct.  In store.ts the flag is true for the pages and false
    for the elements: a page under an id that is taken is refused, and an
    element always gets a generated id. *)
Theorem create_assigns_ids :
  (∀ (entity : Draft Fields) collection,
     ∃ stored,
       create entity false collection = inr (stored, collection ++ [stored])
       ∧ id stored = freshId (ids collection)
       ∧ (id stored ∉ ids collection)
       ∧ fields stored = draft_fields entity)
  ∧ (∀ i1 i2 (f : Fields) collection,
       create (mkDraft i1 f) false collection = create (mkDraft i2 f) false collection)
  ∧ (∀ (entity : Draft Fields) i collection,
       draft_id entity = Some i → i ∈ ids collection →
       create entity true collection = inl (DuplicateIdError i))
  ∧ (∀ (entity : Draft Fields) allow collection stored collection',
       NoDup (ids collection) →
       create entity allow collection = inr (stored, collection') →
       collection' = collection ++ [stored] ∧ NoDup (ids collection'))
  ∧ allowSetId pages = true
  ∧ allowSetId elements = false
  ∧ (∀ (entity : Draft Fields) i collection,
       draft_id entity = Some i → i ∈ ids collection →
       createIn pages entity collection = inl (DuplicateIdError i))
  ∧ (∀ (entity : Draft Fields) collection,
       ∃ stored,
         createIn elements entity collection
         = inr (stored, collection ++ [stored])
         ∧ id stored = freshId (ids collection)).
Proof.
  assert (∀ (entity : Draft Fields) i collection,
            draft_id entity = Some i → i ∈ ids collection →
            create entity true collection = inl (DuplicateIdError i)) as Hdup.
  { intros entity i collection Hi Hin. unfold Crud.create. simpl. rewrite Hi.
    by case_bool_decide. }
  split_and!.
  - intros entity collection. eexists.
    split_and!; [reflexivity|reflexivity|apply freshId_fresh|reflexivity].
  - done.
  - exact Hdup.
  - intros entity allow collection stored collection' Hnd. unfold Crud.create.
    destruct (if allow then draft_id entity else None) as [i|].
    + destruct (bool_decide (i ∈ ids collection)) eqn:Hi; [done|].
      apply bool_decide_eq_false in Hi. intros [= <- <-]. split; [done|].
      rewrite ids_snoc. by apply NoDup_snoc_fresh.
    + intros [= <- <-]. split; [done|].
      rewrite ids_snoc. apply NoDup_snoc_fresh; [done|apply freshId_fresh].
  - done.
  - done.
  - intros entity i collection. apply Hdup.
  - intros entity collection. eexists. split; reflexivity.
Qed.

End EntityStore.

(** C5, witness: a second page under the id of the first one. *)
Lemma create_assigns_ids_witness :
  createIn pages (mkDraft (Some "home") "Home") [mkEntity "home" "Landing"]
  = inl (DuplicateIdError "home").
Proof.
  refine (proj1 (proj2 (proj2 (create_assigns_ids string)))
            (mkDraft (Some "home") "Home") "home" [mkEntity "home" "Landing"]
            eq_refl _).
  apply list_elem_of_here.
Defined.

End CrudFacts.

(** ** Facts about the publication jobs *)
Module JobsFacts.
Import Types Jobs.

(** *** The answer to a poll *)

Lemma asGroups_groups gs : asGroups (groups gs) = Some gs.
Proof.
  unfold asGroups, groups. apply mapM_fmap_Some. intros g. simpl.
  by apply mapM_fmap_Some.
Qed.

(** C6: the answer to a poll is an object with the members [jobId],
    [status], [message], then [url] if the job has one, then [logs] and
    [errors], in which [status] is one of the three values of [JobStatus],
    and [logs] and [errors] are the groups of lines of the job, in order. *)
Theorem pollingResponse_shape (j : PublicationJobData) :
  ∃ members,
    pollingResponse j = JObject members
    ∧ members.*1
      = ["jobId"; "status"; "message"]
        ++ match url (job j) with Some _ => ["url"] | None => [] end
        ++ ["logs"; "errors"]
    ∧ (∃ i st msg, members !! 0 = Some ("jobId", JString i)
                   ∧ members !! 1 = Some ("status", JString st)
                   ∧ members !! 2 = Some ("message", JString msg)
                   ∧ st ∈ ["IN_PROGRESS"; "SUCCESS"; "ERROR"]
                   ∧ st = JobStatus_value (status (job j)))
    ∧ (∀ v, ("url", v) ∈ members → ∃ u, v = JString u ∧ url (job j) = Some u)
    ∧ (∃ ls es, ("logs", ls) ∈ members ∧ ("errors", es) ∈ members
                ∧ asGroups ls = Some (logs j) ∧ asGroups es = Some (errors j))
    ∧ status (job j) ∈ [IN_PROGRESS; SUCCESS; ERROR].
Proof.
  unfold pollingResponse. eexists. split; [reflexivity|]. split_and!.
  - by destruct (url (job j)).
  - eexists _, _, _. split_and!; try done.
    destruct (status (job j)); simpl; set_solver.
  - intros v Hv. destruct (url (job j)) as [u|]; simpl in Hv.
    + repeat (apply elem_of_cons in Hv as [Hv|Hv]; simplify_eq); eauto.
      by apply elem_of_nil in Hv.
    + repeat (apply elem_of_cons in Hv as [Hv|Hv]; simplify_eq).
      by apply elem_of_nil in Hv.
  - exists (groups (logs j)), (groups (errors j)). split_and!.
    + destruct (url (job j)); simpl; set_solver.
    + destruct (url (job j)); simpl; set_solver.
    + apply asGroups_groups.
    + apply asGroups_groups.
  - destruct (status (job j)); set_solver.
Qed.

(** C6, witness: the answer for a published job. *)
Lemma pollingResponse_shape_witness :
  ∃ members,
    pollingResponse
      (mkPublicationJobData (mkJobData "0" SUCCESS "Published" (Some "/site") None)
         [["index.html"]; ["deployed"]] [])
    = JObject members
    ∧ members.*1 = ["jobId"; "status"; "message"; "url"; "logs"; "errors"].
Proof.
  destruct (pollingResponse_shape
              (mkPublicationJobData (mkJobData "0" SUCCESS "Published" (Some "/site") None)
                 [["index.html"]; ["deployed"]] []))
    as (members & Hm & Hkeys & _).
  exists members. split; [exact Hm|exact Hkeys].
Defined.

(** *** The job table *)

Definition status_of (j : Job) : JobStatus := status (job (data j)).

(** What holds of the orchestrator whatever happened: the ids in the table
    come from the counter, and no job in the table is past its deadline. *)
Record inv (o : Orchestrator) : Prop := mkInv {
  inv_ids : ∀ id j, jobs o !! id = Some j → ∃ k, id = pretty k ∧ k < nextJobId o;
  inv_alive : ∀ id j, jobs o !! id = Some j → now o ≤ deadline j;
}.

Lemma inv_start : inv start.
Proof. split; intros id j Hj; simpl in Hj; by rewrite lookup_empty in Hj. Qed.

(** What [drive] does to the entry [id']. *)
Lemma drive_lookup id stage f o id' j' :
  jobs (drive id stage f o) !! id' = Some j' →
  ∃ j, jobs o !! id' = Some j
       ∧ (j' = j ∨ (id' = id ∧ j' = f j ∧ status_of j = IN_PROGRESS ∧ written j = stage)).
Proof.
  unfold drive. destruct (jobs o !! id) as [j|] eqn:Hj; [|by eauto].
  destruct (bool_decide (status (job (data j)) = IN_PROGRESS)) eqn:Hs; simpl; [|by eauto].
  destruct (bool_decide (written j = stage)) eqn:Hw; simpl; [|by eauto].
  apply bool_decide_eq_true in Hs, Hw.
  destruct (decide (id = id')) as [<-|Hne].
  - rewrite lookup_insert_eq. intros [= <-]. exists j. split; [done|]. by right.
  - rewrite lookup_insert_ne by done. by eauto.
Qed.

Lemma drive_clock id stage f o :
  now (drive id stage f o) = now o ∧ nextJobId (drive id stage f o) = nextJobId o.
Proof. unfold drive. by repeat case_match. Qed.

(** The steps that [step] hands to [drive] keep the deadline. *)
Definition keeps_deadline (f : Job → Job) : Prop := ∀ j, deadline (f j) = deadline j.

Lemma inv_drive id stage f o : keeps_deadline f → inv o → inv (drive id stage f o).
Proof.
  intros Hf [Hids Halive].
  destruct (drive_clock id stage f o) as [Hnow Hnext].
  split; intros id' j' Hj'; rewrite ?Hnow, ?Hnext;
    apply drive_lookup in Hj' as (j & Hj & [->|(_ & -> & _)]); eauto.
  rewrite Hf. eauto.
Qed.

(** One step, seen from a job whose id the counter has passed: if it is in
    the table afterwards, it was there before, with the same deadline, and
    unchanged if it had reached a terminal status. *)
Lemma step_job e o k j' :
  inv o → k < nextJobId o →
  jobs (step e o).1 !! pretty k = Some j' →
  ∃ j, jobs o !! pretty k = Some j
       ∧ deadline j' = deadline j
       ∧ (terminal (status_of j) = true → j' = j).
Proof.
  intros Hinv Hk.
  assert (∀ id stage f, keeps_deadline f →
            jobs (drive id stage f o) !! pretty k = Some j' →
            ∃ j, jobs o !! pretty k = Some j ∧ deadline j' = deadline j
                 ∧ (terminal (status_of j) = true → j' = j)) as Hdrive.
  { intros id stage f Hf Hj'.
    apply drive_lookup in Hj' as (j & Hj & [->|(_ & -> & Hs & _)]).
    - by exists j.
    - exists j. split_and!; [done|apply Hf|]. by rewrite Hs. }
  destruct e as [ttl msg|id lines|id err msg|id lines errs|id msg u|id err msg|dt|id];
    simpl; try (by apply Hdrive).
  - destruct (decide (pretty (nextJobId o) = pretty k)) as [Heq|Hne].
    + apply (inj pretty) in Heq. lia.
    + rewrite lookup_insert_ne by done. by eauto.
  - unfold sweep. intros [Hj _]%map_lookup_filter_Some. by eauto.
  - by eauto.
Qed.

Lemma step_counter e o : nextJobId o ≤ nextJobId (step e o).1.
Proof.
  destruct e; simpl; try (by destruct (drive_clock id false (λ j, j) o));
    try (rewrite (proj2 (drive_clock _ _ _ _))); lia.
Qed.

Lemma inv_step e o : inv o → inv (step e o).1.
Proof.
  intros Hinv.
  destruct e as [ttl msg|id lines|id err msg|id lines errs|id msg u|id err msg|dt|id];
    simpl; try (by apply inv_drive); [| |done].
  - destruct Hinv as [Hids Halive]. split; simpl; intros id j Hj.
    + destruct (decide (pretty (nextJobId o) = id)) as [<-|Hne].
      * exists (nextJobId o). split; [done|lia].
      * rewrite lookup_insert_ne in Hj by done.
        destruct (Hids _ _ Hj) as (k & -> & Hk). exists k. split; [done|lia].
    + destruct (decide (pretty (nextJobId o) = id)) as [<-|Hne].
      * rewrite lookup_insert_eq in Hj. injection Hj as <-. simpl. lia.
      * rewrite lookup_insert_ne in Hj by done. eauto.
  - destruct Hinv as [Hids Halive]. split; simpl; intros id j Hj;
      unfold sweep in Hj; apply map_lookup_filter_Some in Hj as [Hj Hd]; eauto.
Qed.

Lemma table_run_snoc es e o : run (es ++ [e]) o = (step e (run es o)).1.
Proof. unfold run. by rewrite foldl_app. Qed.

Lemma table_inv_run es o : inv o → inv (run es o).
Proof.
  intros Ho. induction es as [|e es IH] using rev_ind; [done|].
  rewrite table_run_snoc. by apply inv_step.
Qed.

Lemma run_counter es o : nextJobId o ≤ nextJobId (run es o).
Proof.
  induction es as [|e es IH] using rev_ind; [done|].
  rewrite table_run_snoc. pose proof (step_counter e (run es o)). lia.
Qed.

(** Many steps, seen from a job whose id the counter has passed. *)
Lemma run_job es o k j' :
  inv o → k < nextJobId o →
  jobs (run es o) !! pretty k = Some j' →
  ∃ j, jobs o !! pretty k = Some j
       ∧ deadline j' = deadline j
       ∧ (terminal (status_of j) = true → j' = j).
Proof.
  intros Ho Hk. revert j'.
  induction es as [|e es IH] using rev_ind; intros j' Hj'; [by exists j'|].
  rewrite table_run_snoc in Hj'.
  apply step_job in Hj' as (j1 & Hj1 & Hd1 & Ht1);
    [|by apply table_inv_run|pose proof (run_counter es o); lia].
  destruct (IH _ Hj1) as (j & Hj & Hd & Ht).
  exists j. split_and!; [done|congruence|].
  intros Hterm. specialize (Ht Hterm). subst j1. by apply Ht1.
Qed.

Lemma poll_lookup id o :
  poll id o = match jobs o !! id with
              | Some j => Snapshot (data j)
              | None => NotFoundError id
              end.
Proof. done. Qed.

(** A job that reached a terminal status keeps its snapshot for as long as
    it is in the table. *)
Lemma terminal_stable o id j es j' :
  inv o → jobs o !! id = Some j → terminal (status_of j) = true →
  jobs (run es o) !! id = Some j' → j' = j.
Proof.
  intros Ho Hj Hterm Hj'.
  destruct (inv_ids o Ho id j Hj) as (k & -> & Hk).
  destruct (run_job es o k j' Ho Hk Hj') as (j0 & Hj0 & _ & Hsame).
  rewrite Hj in Hj0. injection Hj0 as <-. by apply Hsame.
Qed.

(** Time does not run backwards. *)
Lemma step_clock e o : now o ≤ now (step e o).1.
Proof.
  destruct e; simpl; try (rewrite (proj1 (drive_clock _ _ _ _))); lia.
Qed.

Lemma run_clock es o : now o ≤ now (run es o).
Proof.
  induction es as [|e es IH] using rev_ind; [done|].
  rewrite table_run_snoc. pose proof (step_clock e (run es o)). lia.
Qed.

Lemma drive_keeps id stage f o id' :
  is_Some (jobs o !! id') → is_Some (jobs (drive id stage f o) !! id').
Proof.
  intros Hin. unfold drive. destruct (jobs o !! id) as [j|] eqn:Hj; [|done].
  destruct (_ && _); [|done]. simpl.
  destruct (decide (id = id')) as [<-|Hne].
  - rewrite lookup_insert_eq. by eexists.
  - by rewrite lookup_insert_ne.
Qed.

(** One step leaves in the table a job whose deadline the clock has not
    passed after it. *)
Lemma step_keeps e o k j :
  k < nextJobId o → jobs o !! pretty k = Some j →
  now (step e o).1 ≤ deadline j →
  is_Some (jobs (step e o).1 !! pretty k).
Proof.
  intros Hk Hj Hnow.
  destruct e as [ttl msg|id lines|id err msg|id lines errs|id msg u|id err msg|dt|id];
    simpl in *; try (by apply drive_keeps; eexists).
  - destruct (decide (pretty (nextJobId o) = pretty k)) as [Heq|Hne].
    + apply (inj pretty) in Heq. lia.
    + rewrite lookup_insert_ne by done. by eexists.
  - exists j. unfold sweep. by apply map_lookup_filter_Some_2.
  - by eexists.
Qed.

(** A job stays in the table for as long as the clock has not passed its
    deadline. *)
Lemma run_keeps es o k j :
  inv o → k < nextJobId o → jobs o !! pretty k = Some j →
  now (run es o) ≤ deadline j →
  is_Some (jobs (run es o) !! pretty k).
Proof.
  intros Ho Hk Hj.
  induction es as [|e es IH] using rev_ind; intros Hnow; [by eexists|].
  rewrite table_run_snoc in *.
  pose proof (step_clock e (run es o)) as Hstep.
  destruct IH as [j1 Hj1]; [lia|].
  destruct (run_job es o k j1 Ho Hk Hj1) as (j0 & Hj0 & Hd & _).
  rewrite Hj in Hj0. injection Hj0 as <-.
  apply (step_keeps e (run es o) k j1); [|done|lia].
  pose proof (run_counter es o). lia.
Qed.

(** What a poll answers for a job that reached a terminal status: its
    snapshot until the clock passes its deadline, not-found afterwards. *)
Lemma terminal_poll o id j es :
  inv o → jobs o !! id = Some j → terminal (status_of j) = true →
  poll id (run es o)
  = if decide (now (run es o) ≤ deadline j)
    then Snapshot (data j) else NotFoundError id.
Proof.
  intros Ho Hj Hterm. rewrite poll_lookup.
  destruct (inv_ids o Ho id j Hj) as (k & -> & Hk).
  case_decide as Hnow.
  - destruct (run_keeps es o k j Ho Hk Hj Hnow) as [j' Hj']. rewrite Hj'.
    by rewrite (terminal_stable o (pretty k) j es j' Ho Hj Hterm Hj').
  - destruct (jobs (run es o) !! pretty k) as [j'|] eqn:Hj'; [|done].
    pose proof (terminal_stable o (pretty k) j es j' Ho Hj Hterm Hj') as ->.
    pose proof (inv_alive _ (table_inv_run es o Ho) _ _ Hj'). lia.
Qed.

(** C7: a poll leaves the orchestrator as it is.  Once a job has reached a
    terminal status, whatever happens next (polls, steps of this or other
    jobs, new jobs, time passing), a poll of the job answers this same
    snapshot for as long as the clock has not passed the deadline of the
    job, and not-found once it has, when the job is evicted.  When the
    write step of a job fails, the job gets the status [ERROR], the message
    of the failure and a new group of errors that holds the error of the
    step, and keeps its deadline; every later poll answers this snapshot
    until the eviction, and none answers any other status than [ERROR]. *)
Theorem terminal_jobs_are_stable :
  (∀ id o, (step (Poll id) o).1 = o)
  ∧ (∀ es0 id j es,
       let o := run es0 start in
       jobs o !! id = Some j → terminal (status_of j) = true →
       poll id (run es o)
       = if decide (now (run es o) ≤ deadline j)
         then Snapshot (data j) else NotFoundError id)
  ∧ (∀ es0 id j err msg es,
       let o := run es0 start in
       let o1 := (step (WriteFailed id err msg) o).1 in
       jobs o !! id = Some j → status_of j = IN_PROGRESS → written j = false →
       (∃ j1, jobs o1 !! id = Some j1
              ∧ status_of j1 = ERROR
              ∧ message (job (data j1)) = msg
              ∧ errors (data j1) = errors (data j) ++ [[err]]
              ∧ deadline j1 = deadline j
              ∧ poll id (run es o1)
                = if decide (now (run es o1) ≤ deadline j)
                  then Snapshot (data j1) else NotFoundError id)
       ∧ ∀ d, poll id (run es o1) = Snapshot d →
              status (job d) = ERROR ∧ status (job d) ≠ SUCCESS).
Proof.
  split_and!; [done| |].
  - intros es0 id j es o Hj Hterm.
    apply terminal_poll; [apply table_inv_run, inv_start|done..].
  - intros es0 id j err msg es o o1 Hj Hs Hw.
    assert (jobs o1 !! id
            = Some (onData (λ d, settle ERROR msg (url (job d)) (appendErrors [err] d)) j))
      as Hj1.
    { unfold o1. simpl. unfold drive. rewrite Hj. unfold status_of in Hs.
      rewrite Hs, Hw. simpl. by rewrite lookup_insert_eq. }
    assert (inv o1) as Ho1 by apply inv_step, table_inv_run, inv_start.
    pose proof (terminal_poll o1 id _ es Ho1 Hj1 eq_refl) as Hpoll.
    simpl in Hpoll. split.
    + eexists. by split_and!.
    + intros d. rewrite Hpoll. case_decide; [|done]. by intros [= <-].
Qed.

(** C8: a job gets its deadline when the publish request is accepted, the
    time of the request plus the time to live, and keeps it for as long as
    it is in the table; once the clock is past the deadline, a poll of the
    job answers not-found, whatever the job had come to. *)
Theorem expired_jobs_are_evicted es0 ttl msg es :
  let o := run es0 start in
  let id := pretty (nextJobId o) in
  let o1 := (step (Publish ttl msg) o).1 in
  let o2 := run es o1 in
  (step (Publish ttl msg) o).2 = Accepted id
  ∧ (∃ j, jobs o1 !! id = Some j ∧ deadline j = now o + ttl
          ∧ poll id o1 = Snapshot (data j))
  ∧ (∀ j, jobs o2 !! id = Some j → deadline j = now o + ttl)
  ∧ (now o + ttl < now o2 → poll id o2 = NotFoundError id).
Proof.
  intros o id o1 o2.
  assert (inv o1) as Ho1 by apply inv_step, table_inv_run, inv_start.
  assert (jobs o1 !! id
          = Some (mkJob (mkPublicationJobData (mkJobData id IN_PROGRESS msg None None) [] [])
                    false (now o + ttl))) as Hj1.
  { unfold o1. simpl. by rewrite lookup_insert_eq. }
  assert (∀ j, jobs o2 !! id = Some j → deadline j = now o + ttl) as Hdeadline.
  { intros j Hj.
    destruct (run_job es o1 (nextJobId o) j Ho1) as (j1 & Hj1' & Hd & _);
      [unfold o1; simpl; lia|done|].
    fold id in Hj1'. rewrite Hj1 in Hj1'. injection Hj1' as <-. by rewrite Hd. }
  split_and!; [done| |done|].
  - eexists. split_and!; [done..|]. by rewrite poll_lookup, Hj1.
  - intros Hlate. rewrite poll_lookup.
    destruct (jobs o2 !! id) as [j|] eqn:Hj; [|done].
    pose proof (Hdeadline j eq_refl) as Hd.
    pose proof (inv_alive o2 (table_inv_run es o1 Ho1) id j Hj). lia.
Qed.

(** *** Concrete runs *)

(** C7, witness: the write step of job 0 fails; the job is at [ERROR] with
    the error of the step, a poll 3 units of time later answers this
    snapshot, and no later poll answers another status than [ERROR]. *)
Lemma terminal_jobs_are_stable_witness :
  let o := run [Publish 60 "Publishing"] start in
  let o1 := (step (WriteFailed "0" "disk full" "Could not write the files") o).1 in
  let es := [PublishDone "0" "Published" "/site"; Elapse 3; Poll "0"] in
  (∃ j1, jobs o1 !! "0" = Some j1
         ∧ status_of j1 = ERROR
         ∧ message (job (data j1)) = "Could not write the files"
         ∧ errors (data j1) = [] ++ [["disk full"]]
         ∧ deadline j1 = 60
         ∧ poll "0" (run es o1)
           = if decide (now (run es o1) ≤ 60)
             then Snapshot (data j1) else NotFoundError "0")
  ∧ ∀ d, poll "0" (run es o1) = Snapshot d →
         status (job d) = ERROR ∧ status (job d) ≠ SUCCESS.
Proof.
  refine (proj2 (proj2 terminal_jobs_are_stable)
            [Publish 60 "Publishing"] "0"
            (mkJob (mkPublicationJobData
                      (mkJobData "0" IN_PROGRESS "Publishing" None None) [] [])
               false 60)
            "disk full" "Could not write the files"
            [PublishDone "0" "Published" "/site"; Elapse 3; Poll "0"]
            _ eq_refl eq_refl).
  vm_compute. reflexivity.
Defined.

(** C8, witness: a job accepted at time 5 with 60 units to live, polled at
    time 66. *)
Lemma expired_jobs_are_evicted_witness :
  poll "0" (run [WriteDone "0" ["index.html"]; Elapse 61]
              (step (Publish 60 "Publishing") (run [Elapse 5] start)).1)
  = NotFoundError "0".
Proof.
  refine (proj2 (proj2 (proj2
            (expired_jobs_are_evicted [Elapse 5] 60 "Publishing"
               [WriteDone "0" ["index.html"]; Elapse 61]))) _).
  vm_compute. lia.
Defined.

End JobsFacts.

(** ** More facts about the flux store *)
Module FluxMore.
Import Flux FluxFacts.

(** The keys of [interface State]. *)
Definition keys : list string := ["pages"; "elements"; "site"; "ui"].

Lemma get_unknown s name : name ∉ keys → get s name = VInherited name.
Proof.
  intros Hname. unfold get.
  repeat (case_decide; [subst; exfalso; apply Hname; unfold keys; set_solver|]).
  done.
Qed.

(** Each call carries on from the one before: its [prev] is the [next] of
    the call before it. *)
Definition chained (l : list call) : Prop :=
  ∀ i c1 c2, l !! i = Some c1 → l !! S i = Some c2 → prev c2 = next c1.

Lemma chained_nil : chained [].
Proof. intros i c1 c2 H. by rewrite lookup_nil in H. Qed.

Lemma chained_snoc l c :
  chained l → (∀ c0, last l = Some c0 → prev c = next c0) → chained (l ++ [c]).
Proof.
  intros Hl Hlast i c1 c2 H1 H2.
  destruct (decide (S i < length l)) as [Hlt|Hge].
  - rewrite lookup_app_l in H1 by lia. rewrite lookup_app_l in H2 by lia. eauto.
  - assert (S i = length l) as Hi.
    { apply lookup_lt_Some in H2. rewrite length_app in H2. simpl in H2. lia. }
    rewrite lookup_app_l in H1 by lia.
    rewrite lookup_app_r, Hi, Nat.sub_diag in H2 by lia. injection H2 as <-.
    apply Hlast. rewrite last_lookup. by replace (pred (length l)) with i by lia.
Qed.

(** Two listeners under one handle are one listener. *)
Lemma handle_unique ls h name cbk name' cbk' :
  NoDup (handles ls) →
  Notify h name cbk ∈ ls → Notify h name' cbk' ∈ ls →
  name = name' ∧ cbk = cbk'.
Proof.
  induction ls as [|l ls IH]; intros Hnd H1 H2; [by apply elem_of_nil in H1|].
  assert (∀ n c, Notify h n c ∈ ls → h ∈ handles ls) as Hin.
  { intros n c Hn. unfold handles. apply list_elem_of_omap. by exists (Notify h n c). }
  destruct l as [|h0 n0 c0]; unfold handles in Hnd; simpl in Hnd.
  - apply elem_of_cons in H1 as [?|H1]; [done|].
    apply elem_of_cons in H2 as [?|H2]; [done|]. by apply IH.
  - apply NoDup_cons in Hnd as [Hh0 Hnd].
    apply elem_of_cons in H1 as [H1|H1]; apply elem_of_cons in H2 as [H2|H2].
    + by simplify_eq.
    + simplify_eq. exfalso. eapply Hh0, Hin, H2.
    + simplify_eq. exfalso. eapply Hh0, Hin, H1.
    + by apply IH.
Qed.

Section Store.

Variable Action : Type.
Variable reducer : State → Action → State.

Abbreviation dispatch := (Flux.dispatch Action reducer).
Abbreviation run := (Flux.run Action reducer).
Abbreviation run_op := (Flux.run_op Action reducer).

(** The history goes on from [w]. *)
Definition run_from (w : world) (ops : list (op Action)) : world :=
  foldl (λ w o, run_op o w) w ops.

Lemma run_app ops ops' s0 : run (ops ++ ops') s0 = run_from (run ops s0) ops'.
Proof. unfold run, Flux.run, run_from. by rewrite foldl_app. Qed.

(** The calls made under the handle [h] so far. *)
Definition calls_by (h : nat) (w : world) : list call :=
  filter (λ c, by_ c = h) (calls w).

(** X1: the first dispatch after the module is loaded calls every subscriber,
    whatever its name and whatever the action changed, once, with [null]
    for [prev] and its slice for [next]. *)
Theorem first_dispatch_notifies_everyone ops s0 h name cbk a :
  let w := run ops s0 in
  Notify h name cbk ∈ listeners w →
  existsb is_dispatch ops = false →
  called_once reducer h (mkCall h cbk VNull (get (reducer (store_state w) a) name)) a w.
Proof.
  intros w Hin Hfirst. subst w.
  destruct (dispatch_calls Action reducer ops s0 h name cbk a Hin) as (new & Hcalls & Hnew).
  exists new. split; [done|].
  by rewrite Hnew, (curState_run Action reducer ops s0), Hfirst.
Qed.

(** X2: a subscription on a name that is not a key of the state reads, on
    both sides of the comparison, what the state object inherits under that
    name (for most names [undefined]): after the first dispatch it is never
    called. *)
Theorem unknown_slice_never_notified ops s0 h name cbk a :
  let w := run ops s0 in
  Notify h name cbk ∈ listeners w →
  name ∉ keys →
  existsb is_dispatch ops = true →
  silent reducer h a w.
Proof.
  intros w Hin Hname Hd. subst w.
  destruct (dispatch_calls Action reducer ops s0 h name cbk a Hin) as (new & Hcalls & Hnew).
  exists new. split; [done|].
  rewrite Hnew, (curState_run Action reducer ops s0), Hd. simpl.
  rewrite !get_unknown by done. unfold strict_neq.
  by rewrite bool_decide_eq_false_2 by auto.
Qed.

(** X3: every call made during a dispatch is the call of a subscription that is
    registered at that time, to its own callback, with the slice of its
    name after the dispatch for [next]; [prev] is [null] (first dispatch) or
    the slice before the dispatch, and then it differs from [next]. *)
Theorem calls_come_from_subscriptions ops s0 a :
  let w := run ops s0 in
  ∃ new,
    calls (dispatch a w) = calls w ++ new
    ∧ ∀ c, c ∈ new →
        ∃ name,
          Notify (by_ c) name (callee c) ∈ listeners w
          ∧ next c = get (reducer (store_state w) a) name
          ∧ (prev c = VNull
             ∨ (prev c = get (store_state w) name ∧ prev c ≠ next c)).
Proof.
  intros w. subst w.
  destruct (inv_run Action reducer ops s0) as [[ns [Hl Hns]] _ _ Hcur].
  rewrite (dispatch_unfold Action reducer a _ ns) by done. simpl.
  eexists. split; [done|].
  intros c Hc. apply list_elem_of_In, in_flat_map in Hc as (l & Hl' & Hc).
  apply list_elem_of_In in Hl', Hc.
  destruct l as [|h name cbk]; [by apply elem_of_nil in Hc|].
  exists name. simpl in Hc.
  destruct (curState (run ops s0)) as [q|] eqn:Hq.
  - destruct Hcur as [?|Hcur]; [done|]. injection Hcur as ->.
    destruct (strict_neq _ _) eqn:Hneq; [|by apply elem_of_nil in Hc].
    apply list_elem_of_singleton in Hc as ->. simpl.
    split_and!; [rewrite Hl; by apply list_elem_of_further|done|].
    right. split; [done|]. unfold strict_neq in Hneq.
    apply bool_decide_eq_true in Hneq. congruence.
  - apply list_elem_of_singleton in Hc as ->. simpl.
    split_and!; [rewrite Hl; by apply list_elem_of_further|done|by left].
Qed.

(** *** Unsubscribing *)

(** The handle [h] was handed out and its listener is gone. *)
Definition gone (h : nat) (w : world) : Prop :=
  inv w ∧ h < next_handle w ∧ h ∉ handles (listeners w).

Lemma handles_tracker ns : handles (TrackState :: ns) = handles ns.
Proof. done. Qed.

Lemma gone_unsubscribe h w : inv w → h < next_handle w → gone h (unsubscribe h w).
Proof.
  intros Hw Hh. split_and!; [by apply inv_unsubscribe|done|].
  simpl. unfold handles. intros (l & Hl & Hhl)%list_elem_of_omap.
  apply list_elem_of_filter in Hl as [Hf _].
  destruct l as [|h' name cbk]; [done|]. simpl in *. simplify_eq.
  by rewrite bool_decide_eq_true_2 in Hf.
Qed.

Lemma gone_step o w h :
  gone h w → gone h (run_op o w) ∧ calls_by h (run_op o w) = calls_by h w.
Proof.
  intros (Hw & Hh & Hout).
  destruct o as [name cbk|name cbk|h'|a]; simpl.
  - split; [|done]. split_and!; [by apply inv_subscribe|simpl; lia|].
    simpl. rewrite handles_subscribe. intros [?| ->%list_elem_of_singleton]%elem_of_app;
      [done|lia].
  - split; [|done]. split_and!; [by apply inv_subscribe|simpl; lia|].
    simpl. rewrite handles_subscribe. intros [?| ->%list_elem_of_singleton]%elem_of_app;
      [done|lia].
  - split; [|done]. split_and!; [by apply inv_unsubscribe|done|].
    simpl. intros Hin. apply Hout.
    eapply elem_of_sublist; [done|apply handles_filter_sublist].
  - destruct (inv_head w Hw) as (ns & Hl & Hns).
    rewrite (dispatch_unfold Action reducer a w ns) by done.
    rewrite Hl, handles_tracker in Hout.
    split.
    + split_and!; simpl; [|done|by rewrite Hl].
      rewrite <- (dispatch_unfold Action reducer a w ns) by done.
      by apply inv_dispatch.
    + unfold calls_by. simpl. rewrite filter_app, filter_emitted_absent by done.
      by rewrite app_nil_r.
Qed.

Lemma gone_run_from h ops w :
  gone h w → calls_by h (run_from w ops) = calls_by h w.
Proof.
  revert w. induction ops as [|o ops IH]; intros w Hw; [done|].
  destruct (gone_step o w h Hw) as [Hw' Hcalls].
  unfold run_from in *. simpl. by rewrite IH, Hcalls.
Qed.

(** X4: no dispatch that starts after the function that [subscribeToCrud]
    or [subscribeTo] returned has been called calls the callback of that
    subscription, whatever is dispatched, subscribed or unsubscribed
    afterwards.  (The events of a history happen between dispatches: a
    dispatch that is in progress when the function is called runs on the
    listeners it started with, and is not spoken of here.) *)
Theorem unsubscribed_never_called ops s0 h ops' :
  h < next_handle (run ops s0) →
  calls_by h (run (ops ++ Unsubscribe h :: ops') s0) = calls_by h (run ops s0).
Proof.
  intros Hh. rewrite run_app. unfold run_from. simpl.
  change (calls_by h (run_from (unsubscribe h (run ops s0)) ops') = calls_by h (run ops s0)).
  rewrite gone_run_from; [done|].
  apply gone_unsubscribe; [apply inv_run|done].
Qed.

(** *** The calls of one subscription over time *)

Record chain_inv (w : world) : Prop := mkChainInv {
  ci_inv : inv w;
  ci_quiet : curState w = None → calls w = [];
  ci_bound : ∀ c, c ∈ calls w → by_ c < next_handle w;
  ci_chain : ∀ h, chained (calls_by h w);
  ci_last : ∀ h name cbk c,
    Notify h name cbk ∈ listeners w →
    last (calls_by h w) = Some c →
    next c = get (store_state w) name;
}.

Lemma chain_inv_init s0 : chain_inv (init s0).
Proof.
  split; simpl.
  - apply inv_init.
  - done.
  - intros c Hc. by apply elem_of_nil in Hc.
  - intros h. apply chained_nil.
  - intros h name cbk c _ Hlast. done.
Qed.

Lemma chain_inv_subscribe name cbk w :
  chain_inv w → chain_inv (subscribe (λ h, Notify h name cbk) w).
Proof.
  intros [Hw Hq Hb Hc Hl]. split; simpl.
  - by apply inv_subscribe.
  - done.
  - intros c Hin. specialize (Hb c Hin). lia.
  - done.
  - intros h name' cbk' c [Hin|Hnew]%elem_of_app; [by eauto|].
    apply list_elem_of_singleton in Hnew. injection Hnew as -> -> ->.
    intros Hlast. exfalso.
    assert (calls_by (next_handle w) w = []) as Hnil.
    { apply elem_of_nil_inv. intros c' [Hby Hc']%list_elem_of_filter.
      specialize (Hb c' Hc'). lia. }
    unfold calls_by in *. simpl in Hlast. by rewrite Hnil in Hlast.
Qed.

Lemma chain_inv_unsubscribe h w : chain_inv w → chain_inv (unsubscribe h w).
Proof.
  intros [Hw Hq Hb Hc Hl]. split; simpl.
  - by apply inv_unsubscribe.
  - done.
  - done.
  - done.
  - intros h' name cbk c [_ Hin]%list_elem_of_filter. by eauto.
Qed.

Lemma chain_inv_dispatch a w : chain_inv w → chain_inv (dispatch a w).
Proof.
  intros [Hw Hq Hb Hc Hl].
  destruct (inv_head w Hw) as (ns & Hls & Hns).
  pose proof (inv_nodup w Hw) as Hnd. rewrite Hls, handles_tracker in Hnd.
  pose proof (inv_bound w Hw) as Hbound. rewrite Hls, handles_tracker in Hbound.
  pose proof (inv_dispatch Action reducer a w Hw) as Hw'.
  rewrite (dispatch_unfold Action reducer a w ns) in * by done.
  set (st' := reducer (store_state w) a) in *.
  assert (∀ h, ((h ∉ handles ns) ∧
                filter (λ c, by_ c = h) (flat_map (emitted st' (curState w)) ns) = [])
               ∨ ∃ name cbk, Notify h name cbk ∈ ns ∧
                   filter (λ c, by_ c = h) (flat_map (emitted st' (curState w)) ns)
                   = emitted st' (curState w) (Notify h name cbk)) as Hcase.
  { intros h. destruct (decide (h ∈ handles ns)) as [Hin|Hout].
    - right. unfold handles in Hin. apply list_elem_of_omap in Hin as (l & Hl' & Hhl).
      destruct l as [|h' name cbk]; [done|]. injection Hhl as ->.
      exists name, cbk. split; [done|]. by apply filter_emitted_unique.
    - left. split; [done|]. by apply filter_emitted_absent. }
  assert (∀ h name cbk, Notify h name cbk ∈ listeners w → Notify h name cbk ∈ ns) as Hns'.
  { intros h name cbk. rewrite Hls. by intros [?|?]%elem_of_cons. }
  assert (∀ h name cbk, Notify h name cbk ∈ ns → h ∈ handles ns) as Hh.
  { intros h name cbk Hin. unfold handles. apply list_elem_of_omap.
    by exists (Notify h name cbk). }
  split; simpl.
  - done.
  - done.
  - intros c [Hin|Hin]%elem_of_app; [by auto|].
    apply list_elem_of_In, in_flat_map in Hin as (l & Hl' & Hin).
    apply list_elem_of_In in Hl', Hin. apply emitted_by in Hin.
    rewrite Forall_forall in Hbound. apply Hbound. unfold handles.
    apply list_elem_of_omap. by exists l.
  - intros h. unfold calls_by. simpl. rewrite filter_app.
    destruct (Hcase h) as [[_ ->]|(name & cbk & Hin & ->)];
      [rewrite app_nil_r; apply Hc|].
    simpl. destruct (curState w) as [q|] eqn:Hcur.
    + destruct (strict_neq _ _); [|rewrite app_nil_r; apply Hc].
      apply chained_snoc; [apply Hc|]. intros c0 Hlast. simpl.
      destruct (inv_cur w Hw) as [?|Heq]; [congruence|].
      rewrite Hcur in Heq. injection Heq as ->.
      symmetry. eapply Hl; [|exact Hlast]. rewrite Hls. by apply list_elem_of_further.
    + rewrite (Hq eq_refl). simpl. apply (chained_snoc []); [apply chained_nil|done].
  - intros h name cbk c Hin. apply Hns' in Hin. unfold calls_by. simpl.
    rewrite filter_app.
    destruct (Hcase h) as [[Hout _]|(name' & cbk' & Hin' & ->)];
      [by apply Hh in Hin|].
    destruct (handle_unique ns h name cbk name' cbk' Hnd Hin Hin') as [<- <-].
    simpl. destruct (curState w) as [q|] eqn:Hcur.
    + destruct (inv_cur w Hw) as [?|Heq]; [congruence|].
      rewrite Hcur in Heq. injection Heq as ->.
      destruct (strict_neq _ _) eqn:Hneq.
      * rewrite last_snoc. by intros [= <-].
      * rewrite app_nil_r. intros Hlast.
        unfold strict_neq in Hneq. apply bool_decide_eq_false in Hneq.
        apply dec_stable in Hneq. rewrite Hneq.
        eapply Hl; [|exact Hlast]. rewrite Hls. by apply list_elem_of_further.
    + rewrite last_snoc. by intros [= <-].
Qed.

Lemma chain_inv_run ops s0 : chain_inv (run ops s0).
Proof.
  induction ops as [|o ops IH] using rev_ind; [apply chain_inv_init|].
  rewrite (run_snoc Action reducer).
  destruct o as [name cbk|name cbk|h|a]; simpl.
  - by apply chain_inv_subscribe.
  - by apply chain_inv_subscribe.
  - by apply chain_inv_unsubscribe.
  - by apply chain_inv_dispatch.
Qed.

(** X5: a subscriber misses no change of its slice: in the calls of one
    subscription, taken in order, the [prev] of each call is the [next] of
    the call before it. *)
Theorem calls_are_chained ops s0 h : chained (calls_by h (run ops s0)).
Proof. apply chain_inv_run. Qed.

(** X6: what a registered subscriber was last given as [next] is the slice of
    its name as the store holds it now. *)
Theorem last_next_is_current ops s0 h name cbk c :
  let w := run ops s0 in
  Notify h name cbk ∈ listeners w →
  last (calls_by h w) = Some c →
  next c = get (store_state w) name.
Proof. intros w. apply chain_inv_run. Qed.

(** *** The tracker and the order of the calls *)

(** X8: after a dispatch, [curState] is the state of the store and [prevState]
    the state that the store held before this dispatch; after the first
    dispatch [prevState] is still unset. *)
Theorem tracker_follows_the_store ops s0 a :
  let w := run ops s0 in
  curState (dispatch a w) = Some (reducer (store_state w) a)
  ∧ store_state (dispatch a w) = reducer (store_state w) a
  ∧ prevState (dispatch a w)
    = if existsb is_dispatch ops then Some (store_state w) else None.
Proof.
  intros w. subst w.
  destruct (inv_run Action reducer ops s0) as [[ns [Hl Hns]] _ _ _].
  rewrite (dispatch_unfold Action reducer a _ ns) by done. simpl.
  by rewrite (curState_run Action reducer ops s0).
Qed.

Lemma sublist_StronglySorted (l k : list nat) :
  l `sublist_of` k → StronglySorted lt k → StronglySorted lt l.
Proof.
  induction 1 as [|x l k Hlk IH|x l k Hlk IH]; intros Hk; [done| |].
  - apply StronglySorted_cons in Hk as [Hx Hk]. apply StronglySorted_cons.
    split; [|by apply IH]. rewrite Forall_forall in Hx. apply Forall_forall.
    intros y Hy. apply Hx. by eapply elem_of_sublist.
  - apply StronglySorted_cons in Hk as [_ Hk]. by apply IH.
Qed.

(** The handles of the listeners grow along the list. *)
Lemma handles_sorted ops s0 : StronglySorted lt (handles (listeners (run ops s0))).
Proof.
  induction ops as [|o ops IH] using rev_ind; [apply SSorted_nil|].
  rewrite (run_snoc Action reducer).
  pose proof (inv_run Action reducer ops s0) as Hw.
  destruct o as [name cbk|name cbk|h|a]; simpl.
  - rewrite handles_subscribe. apply StronglySorted_app_2; [|done|repeat constructor].
    intros x1 x2 Hx1 ->%list_elem_of_singleton.
    pose proof (inv_bound _ Hw) as Hb. rewrite Forall_forall in Hb. by apply Hb.
  - rewrite handles_subscribe. apply StronglySorted_app_2; [|done|repeat constructor].
    intros x1 x2 Hx1 ->%list_elem_of_singleton.
    pose proof (inv_bound _ Hw) as Hb. rewrite Forall_forall in Hb. by apply Hb.
  - eapply sublist_StronglySorted; [apply handles_filter_sublist|done].
  - destruct (inv_head _ Hw) as (ns & Hl & Hns).
    by rewrite (dispatch_unfold Action reducer a _ ns).
Qed.

Lemma emitted_handles st p ns :
  by_ <$> flat_map (emitted st p) ns `sublist_of` handles ns.
Proof.
  induction ns as [|l ns IH]; [done|].
  destruct l as [|h name cbk]; [done|].
  unfold handles. simpl. destruct p as [q|]; [destruct (strict_neq _ _)|]; simpl.
  - by apply sublist_skip.
  - by apply sublist_cons.
  - by apply sublist_skip.
Qed.

(** X9: during one dispatch the callbacks are called in the order in which they
    were subscribed, each subscription at most once: the handles of the
    calls grow strictly. *)
Theorem calls_in_subscription_order ops s0 a :
  let w := run ops s0 in
  ∃ new,
    calls (dispatch a w) = calls w ++ new
    ∧ StronglySorted lt (by_ <$> new).
Proof.
  intros w. subst w.
  destruct (inv_run Action reducer ops s0) as [[ns [Hl Hns]] _ _ _].
  rewrite (dispatch_unfold Action reducer a _ ns) by done. simpl.
  eexists. split; [done|].
  eapply sublist_StronglySorted; [apply emitted_handles|].
  pose proof (handles_sorted ops s0) as Hs. by rewrite Hl in Hs.
Qed.

End Store.

(** *** The store of store.ts *)

Section Reducers.

Import RootReducer.

Variable Action : Type.
Variable pagesReducer elementsReducer siteReducer uiReducer : value → Action → value.

Abbreviation root :=
  (combineReducers Action pagesReducer elementsReducer siteReducer uiReducer).
Abbreviation sliceReducer :=
  (reducerOf Action pagesReducer elementsReducer siteReducer uiReducer).

Lemma get_combineReducers name r s a :
  sliceReducer name = Some r → get (root s a) name = r (get s name) a.
Proof.
  unfold reducerOf, get. repeat case_decide; by intros [= <-].
Qed.

(** X7: with the root reducer of store.ts, from the second dispatch on, whether
    a subscriber on one of the four slices is called is decided by the
    reducer of that slice alone: no call if it returns the slice it was
    given, one call with the old and the new slice if it returns another
    one, whatever the reducers of the other slices do. *)
Theorem slice_reducer_decides ops s0 h name r cbk a :
  let w := Flux.run Action root ops s0 in
  let before := get (store_state w) name in
  sliceReducer name = Some r →
  Notify h name cbk ∈ listeners w →
  existsb is_dispatch ops = true →
  if decide (r before a = before)
  then silent root h a w
  else called_once root h (mkCall h cbk before (r before a)) a w.
Proof.
  intros w before Hr Hin Hd. subst w before.
  destruct (dispatch_calls Action root ops s0 h name cbk a Hin) as (new & Hcalls & Hnew).
  rewrite (curState_run Action root ops s0), Hd in Hnew. simpl in Hnew.
  rewrite (get_combineReducers name r _ a Hr) in Hnew. unfold strict_neq in Hnew.
  case_decide as Heq; exists new; (split; [done|]); rewrite Hnew.
  - by rewrite bool_decide_eq_false_2 by auto.
  - by rewrite bool_decide_eq_true_2.
Qed.

End Reducers.

(** *** Concrete runs *)

(** X1, witness: before any dispatch, a subscriber on the user interface is called by a
    dispatch that replaces the pages. *)
Lemma first_dispatch_notifies_everyone_witness :
  called_once set_state 0 (mkCall 0 7 VNull (VRef 4)) s_pages
    (Flux.run State set_state [SubscribeTo "ui" 7] s_init).
Proof.
  apply (first_dispatch_notifies_everyone State set_state
           [SubscribeTo "ui" 7] s_init 0 "ui" 7 s_pages).
  - vm_compute. apply list_elem_of_further, list_elem_of_here.
  - reflexivity.
Defined.

(** X2, witness: a subscriber on [toString], which the state inherits. *)
Lemma unknown_slice_never_notified_witness :
  silent set_state 0 s_pages
    (Flux.run State set_state [SubscribeToCrud "toString" 7; Dispatch s_elements] s_init).
Proof.
  apply (unknown_slice_never_notified State set_state
           [SubscribeToCrud "toString" 7; Dispatch s_elements] s_init 0 "toString" 7 s_pages).
  - vm_compute. apply list_elem_of_further, list_elem_of_here.
  - unfold keys. intros Hin.
    repeat (apply elem_of_cons in Hin as [Hin|Hin]; [discriminate Hin|]).
    by apply elem_of_nil in Hin.
  - reflexivity.
Defined.

(** X4, witness: a subscriber on the pages that unsubscribes after the first dispatch
    keeps its one call. *)
Lemma unsubscribed_never_called_witness :
  calls_by 0
    (Flux.run State set_state
       ([SubscribeToCrud "pages" 7; Dispatch s_elements]
        ++ Unsubscribe 0 :: [Dispatch s_pages; Dispatch s_init]) s_init)
  = [mkCall 0 7 VNull (VRef 1)].
Proof.
  exact (unsubscribed_never_called State set_state
           [SubscribeToCrud "pages" 7; Dispatch s_elements] s_init 0
           [Dispatch s_pages; Dispatch s_init] (le_n 1)).
Defined.

(** X6, witness: the pages subscriber after two dispatches: it was last given the pages
    that the store holds. *)
Lemma last_next_is_current_witness :
  next (mkCall 0 7 (VRef 1) (VRef 6))
  = get (store_state
           (Flux.run State set_state
              [SubscribeToCrud "pages" 7; Dispatch s_elements; Dispatch s_pages] s_init))
        "pages".
Proof.
  apply (last_next_is_current State set_state
           [SubscribeToCrud "pages" 7; Dispatch s_elements; Dispatch s_pages] s_init
           0 "pages" 7 (mkCall 0 7 (VRef 1) (VRef 6))).
  - vm_compute. apply list_elem_of_further, list_elem_of_here.
  - reflexivity.
Defined.

(** X5, witness: the calls of the pages subscriber over three dispatches. *)
Lemma calls_are_chained_witness :
  chained
    (calls_by 0
       (Flux.run State set_state
          [SubscribeToCrud "pages" 7; Dispatch s_elements; Dispatch s_pages;
           Dispatch s_init] s_init)).
Proof.
  exact (calls_are_chained State set_state
           [SubscribeToCrud "pages" 7; Dispatch s_elements; Dispatch s_pages;
            Dispatch s_init] s_init 0).
Defined.

(** Actions that replace the pages or the elements, on a store whose site
    and user-interface reducers do nothing. *)
Inductive edit : Type := SetPages (r : nat) | SetElements (r : nat).

Definition editPages (v : value) (a : edit) : value :=
  match a with SetPages r => VRef r | SetElements _ => v end.

Definition editElements (v : value) (a : edit) : value :=
  match a with SetElements r => VRef r | SetPages _ => v end.

Definition keep (v : value) (a : edit) : value := v.

(** X7, witness: an edit of the elements leaves the subscriber on the pages alone. *)
Lemma slice_reducer_decides_witness :
  silent (RootReducer.combineReducers edit editPages editElements keep keep)
    0 (SetElements 9)
    (Flux.run edit (RootReducer.combineReducers edit editPages editElements keep keep)
       [SubscribeToCrud "pages" 7; Dispatch (SetPages 8)] s_init).
Proof.
  exact (slice_reducer_decides edit editPages editElements keep keep
           [SubscribeToCrud "pages" 7; Dispatch (SetPages 8)] s_init
           0 "pages" editPages 7 (SetElements 9) eq_refl
           (list_elem_of_further _ _ _ (list_elem_of_here _ _)) eq_refl).
Defined.

End FluxMore.

(** ** More facts about the backends *)
Module BackendsMore.
Import Types Backends BackendsFacts Routes.

#[local] Arguments getBackend : simpl never.
#[local] Arguments toBackendData : simpl never.
#[local] Arguments siteMeta : simpl never.

Ltac unfold_result :=
  unfold mbind, result_bind, mret, result_ret, nullish in *.

Section Resolution.

Context {Session : Type}.
Implicit Types (config : ServerConfig Session) (session : BackendSession Session).
Implicit Types (b backend : Backend Session) (backends : list (Backend Session)).

Lemma firstLoggedIn_Some_inv session backends b :
  firstLoggedIn session backends = Ok (Some b) →
  b ∈ backends ∧ isLoggedIn b session = Ok true.
Proof.
  induction backends as [|x l IH]; simpl; [done|]. unfold_result.
  destruct (isLoggedIn x session) as [[|]|e] eqn:Hx; [| |done].
  - intros [= <-]. split; [apply list_elem_of_here|done].
  - intros H. destruct (IH H). split; [by apply list_elem_of_further|done].
Qed.

Lemma firstLoggedIn_None_inv session backends :
  firstLoggedIn session backends = Ok None → Forall (loggedOut session) backends.
Proof.
  induction backends as [|x l IH]; simpl; [by intros; apply Forall_nil_2|]. unfold_result.
  destruct (isLoggedIn x session) as [[|]|e] eqn:Hx; [done| |done].
  intros H. apply Forall_cons. split; [done|by apply IH].
Qed.

Lemma firstLoggedIn_Throw_inv session backends e :
  firstLoggedIn session backends = Throw e →
  ∃ b, b ∈ backends ∧ isLoggedIn b session = Throw e.
Proof.
  induction backends as [|x l IH]; simpl; [done|]. unfold_result.
  destruct (isLoggedIn x session) as [[|]|e'] eqn:Hx; [done| |].
  - intros H. destruct (IH H) as (b & Hb & He). exists b.
    split; [by apply list_elem_of_further|done].
  - intros [= <-]. exists x. split; [apply list_elem_of_here|done].
Qed.

Lemma find_elem {A : Type} (f : A → bool) (l : list A) x :
  List.find f l = Some x → x ∈ l.
Proof. intros H. apply find_some in H as [H _]. by apply list_elem_of_In. Qed.

Lemma getBackend_elem config session ty backendId b :
  getBackend config session ty backendId = Ok (Some b) →
  b ∈ getBackends config ty.
Proof.
  unfold getBackend. destruct (truthy backendId).
  - intros [= H]. by apply find_elem in H.
  - unfold_result.
    destruct (firstLoggedIn session (getBackends config ty)) as [[b'|]|e] eqn:Hf; [| |done].
    + intros [= <-]. by apply firstLoggedIn_Some_inv in Hf as [? _].
    + intros [= H]. destruct (getBackends config ty); [done|].
      injection H as <-. apply list_elem_of_here.
Qed.

Lemma getBackend_Throw_inv config session ty backendId e :
  getBackend config session ty backendId = Throw e →
  truthy backendId = false
  ∧ ∃ b, b ∈ getBackends config ty ∧ isLoggedIn b session = Throw e.
Proof.
  unfold getBackend. destruct (truthy backendId); [done|]. unfold_result.
  destruct (firstLoggedIn session (getBackends config ty)) as [[b'|]|e'] eqn:Hf;
    [done|done|].
  intros [= <-]. split; [done|]. by apply firstLoggedIn_Throw_inv.
Qed.

Lemma toBackendData_Throw_inv session b e :
  toBackendData session b = Throw e →
  isLoggedIn b session = Throw e
  ∨ (∃ loggedIn, isLoggedIn b session = Ok loggedIn)
    ∧ getAuthorizeURL b session = Throw e.
Proof.
  unfold toBackendData. unfold_result.
  destruct (isLoggedIn b session) as [li|e1]; [|by intros [= <-]; left].
  destruct (getAuthorizeURL b session) as [u|e2]; [done|].
  intros [= <-]. right. by eauto.
Qed.

(** X10: what [getBackend] answers is one of the backends registered for the
    type; when it was not asked for by a (non-empty) id, it is a backend
    that reports the session logged in, or else the first of the list. *)
Theorem getBackend_answers_registered config session ty backendId b :
  getBackend config session ty backendId = Ok (Some b) →
  b ∈ getBackends config ty
  ∧ (truthy backendId = false →
     isLoggedIn b session = Ok true
     ∨ (head (getBackends config ty) = Some b
        ∧ Forall (loggedOut session) (getBackends config ty))).
Proof.
  intros H. split; [by eapply getBackend_elem|].
  intros Hfalsy. unfold getBackend in H. rewrite Hfalsy in H. unfold_result.
  destruct (firstLoggedIn session (getBackends config ty)) as [[b'|]|e] eqn:Hf; [| |done].
  - injection H as <-. left. by apply firstLoggedIn_Some_inv in Hf as [_ ?].
  - injection H as H. right. split; [done|]. by apply firstLoggedIn_None_inv.
Qed.

(** X11: without an explicit id (or with the empty string for one), [getBackend]
    answers not-found exactly when no backend is registered for the type. *)
Theorem getBackend_not_found_iff_empty config session ty backendId :
  truthy backendId = false →
  getBackend config session ty backendId = Ok None ↔ getBackends config ty = [].
Proof.
  intros Hfalsy. unfold getBackend. rewrite Hfalsy. unfold_result. split.
  - destruct (firstLoggedIn session (getBackends config ty)) as [[b'|]|e]; [done| |done].
    intros [= H]. by destruct (getBackends config ty).
  - by intros ->.
Qed.

(** X12: [getBackend] fails only when it was given no (non-empty) id and the
    [isLoggedIn] of one of the registered backends fails, and then with the
    error of that call. *)
Theorem getBackend_fails_with_isLoggedIn config session ty backendId e :
  getBackend config session ty backendId = Throw e →
  truthy backendId = false
  ∧ ∃ pre b post,
      getBackends config ty = pre ++ b :: post
      ∧ Forall (loggedOut session) pre
      ∧ isLoggedIn b session = Throw e.
Proof.
  intros H. destruct (getBackend_Throw_inv _ _ _ _ _ H) as [Hfalsy _].
  split; [done|]. unfold getBackend in H. rewrite Hfalsy in H. unfold_result.
  destruct (firstLoggedIn session (getBackends config ty)) as [[b'|]|e'] eqn:Hf;
    [done|done|]. injection H as ->.
  clear Hfalsy. induction (getBackends config ty) as [|x l IH]; [done|].
  simpl in Hf. unfold_result.
  destruct (isLoggedIn x session) as [[|]|e'] eqn:Hx; [done| |].
  - destruct (IH Hf) as (pre & b & post & -> & Hpre & Hb).
    exists (x :: pre), b, post. split_and!; [done| |done].
    apply Forall_cons. by split.
  - injection Hf as ->. exists [], x, l. split_and!; [done|apply Forall_nil_2|done].
Qed.

(** X13: [toBackendData] fails exactly when [isLoggedIn] fails, or [isLoggedIn]
    answers and [getAuthorizeURL] fails, with the error of the call that
    failed. *)
Theorem toBackendData_fails_with_first_call session b e :
  toBackendData session b = Throw e
  ↔ isLoggedIn b session = Throw e
    ∨ ((∃ loggedIn, isLoggedIn b session = Ok loggedIn)
       ∧ getAuthorizeURL b session = Throw e).
Proof.
  split; [apply toBackendData_Throw_inv|].
  unfold toBackendData. unfold_result.
  intros [->|[[li ->] ->]]; done.
Qed.

End Resolution.

(** *** The routes *)

(** A call that, if it fails, fails with an error without a [code]. *)
Definition uncoded {A : Type} (r : result A) : Prop :=
  ∀ e, r = Throw e → code e = None.

Lemma promiseAll_Ok {A : Type} firstRejection (settled : list (result A)) l :
  promiseAll firstRejection settled = Ok l ↔ Forall2 (λ r a, r = Ok a) settled l.
Proof.
  unfold promiseAll. revert l.
  induction settled as [|r rs IH]; intros l; simpl.
  - split; [intros [= <-]; constructor|by intros ->%Forall2_nil_inv_l].
  - destruct r as [a|e]; simpl.
    + specialize (IH (fulfilled rs)).
      destruct (rejections rs) as [|e es] eqn:Hrej.
      * split.
        -- intros [= <-]. constructor; [done|]. by apply IH.
        -- intros (a' & l' & [= <-] & Hl' & ->)%Forall2_cons_inv_l.
           f_equal. f_equal.
           clear IH. revert l' Hl'. clear Hrej.
           induction rs as [|r rs IHrs]; intros l' Hl'.
           ++ by apply Forall2_nil_inv_l in Hl' as ->.
           ++ apply Forall2_cons_inv_l in Hl' as (a' & l'' & -> & Hl'' & ->).
              simpl. f_equal. by apply IHrs.
      * split; [done|].
        intros (a' & l' & _ & Hl' & ->)%Forall2_cons_inv_l. exfalso.
        clear IH. revert l' Hl' e es Hrej.
        induction rs as [|r rs IHrs]; intros l' Hl' e es Hrej; [done|].
        apply Forall2_cons_inv_l in Hl' as (a'' & l'' & -> & Hl'' & ->).
        simpl in Hrej. by eapply IHrs.
    + split; [done|]. by intros (a' & l' & ? & _)%Forall2_cons_inv_l.
Qed.

Lemma rejections_elem {A : Type} (settled : list (result A)) e :
  e ∈ rejections settled ↔ Throw e ∈ settled.
Proof.
  unfold rejections. rewrite list_elem_of_omap. split.
  - intros (r & Hr & Hre). destruct r; by simplify_eq.
  - intros Hin. by exists (Throw e).
Qed.

Section Routes.

Context {Session : Type}.
Variable missingParam : string → JsError.
Variable firstRejection : list JsError → JsError.

Abbreviation routeLoginStatus := (Backends.routeLoginStatus (Session:=Session) missingParam).
Abbreviation routeLogout := (Backends.routeLogout (Session:=Session) missingParam).
Abbreviation routeListBackends :=
  (Routes.routeListBackends (Session:=Session) missingParam firstRejection).
Abbreviation routeLoginSuccess := (Routes.routeLoginSuccess (Session:=Session) missingParam).

Ltac in_codes :=
  repeat first [apply list_elem_of_here | apply list_elem_of_further].

Ltac run_route :=
  unfold Backends.routeLoginStatus, Backends.routeLogout, Routes.routeListBackends,
    Routes.routeLoginSuccess, queryOf, requiredParam in *;
  unfold_result; simpl in *.

(** X14: the login-status route hands out the data of a user only with status
    200, for a backend that is registered for the type of the request and
    that reports the session of the request logged in; the user and the
    descriptor are those of this backend. *)
Theorem user_data_only_when_logged_in (req : Request Session LoginStatusQuery) d u m :
  json (routeLoginStatus req) = LoginStatusBody d u m →
  routeLoginStatus req = respond 200 (LoginStatusBody d u m)
  ∧ ∃ cfg q s b,
      app_config req = Some cfg ∧ query req = Some q ∧ session req = Some s
      ∧ b ∈ getBackends cfg (ls_type q)
      ∧ isLoggedIn b (Some s) = Ok true
      ∧ getUserData b (Some s) = Ok u
      ∧ backendId d = id b.
Proof.
  intros Hbody.
  destruct (routeLoginStatus_body_inv missingParam req d u m Hbody)
    as (cfg & q & s & b & Hc & Hq & Hs & Hb & Hl & Hd & Hu & Hm).
  split; [by eapply routeLoginStatus_success|].
  exists cfg, q, s, b. split_and!; try done.
  - by eapply getBackend_elem.
  - unfold toBackendData in Hd. unfold_result.
    destruct (isLoggedIn b (Some s)); [|done].
    destruct (getAuthorizeURL b (Some s)); [|done]. by injection Hd as <-.
Qed.

(** X15: when neither the validation nor the backends throw errors with a
    [code], the login-status route answers 200, 401 or 500 and nothing
    else. *)
Theorem login_status_without_coded_errors (req : Request Session LoginStatusQuery) :
  (∀ name, code (missingParam name) = None) →
  (∀ cfg ty b s wid,
     app_config req = Some cfg → b ∈ getBackends cfg ty →
     uncoded (isLoggedIn b s) ∧ uncoded (getAuthorizeURL b s)
     ∧ uncoded (getUserData b s) ∧ uncoded (getSiteMeta b s wid)) →
  statusCode (routeLoginStatus req) ∈ [200; 401; 500]%Z.
Proof.
  intros Hmp Hbk. run_route.
  destruct (app_config req) as [cfg|] eqn:Hc; [|rewrite Hmp; in_codes].
  destruct (query req) as [q|]; [|rewrite Hmp; in_codes].
  destruct (session req) as [s|]; [|rewrite Hmp; in_codes].
  destruct (getBackend cfg (Some s) (ls_type q) (ls_backendId q)) as [[b|]|e] eqn:Hb;
    [|in_codes|].
  2:{ apply getBackend_Throw_inv in Hb as (_ & b & Hin & He).
      destruct (Hbk cfg (ls_type q) b (Some s) "" eq_refl Hin) as (Hl & _).
      rewrite (Hl e He). in_codes. }
  apply getBackend_elem in Hb.
  assert (∀ wid, uncoded (isLoggedIn b (Some s)) ∧ uncoded (getAuthorizeURL b (Some s))
                 ∧ uncoded (getUserData b (Some s)) ∧ uncoded (getSiteMeta b (Some s) wid))
    as Hun by (intros wid; by eapply Hbk).
  destruct (Hun "") as (Hl & Ha & Hu & _).
  destruct (isLoggedIn b (Some s)) as [[|]|e] eqn:Hli; simpl.
  - destruct (toBackendData (Some s) b) as [d|e] eqn:Hd.
    2:{ apply toBackendData_Throw_inv in Hd as [Hd|[_ Hd]].
        - rewrite Hli in Hd. done.
        - rewrite (Ha e Hd). in_codes. }
    destruct (getUserData b (Some s)) as [u|e] eqn:Hud; [|rewrite (Hu e eq_refl); in_codes].
    destruct (siteMeta (Some s) b (ls_id q)) as [m|e] eqn:Hm; [in_codes|].
    unfold siteMeta in Hm. destruct (ls_id q) as [wid|]; [|done].
    destruct (bool_decide (wid = "")); [done|].
    destruct (bool_decide (type b = STORAGE)); [|done]. unfold_result.
    destruct (Hun wid) as (_ & _ & _ & Hsm).
    destruct (getSiteMeta b (Some s) wid) as [meta|e'] eqn:Hg; [done|].
    injection Hm as <-. rewrite (Hsm e' eq_refl). in_codes.
  - in_codes.
  - rewrite (Hl e eq_refl). in_codes.
Qed.


(** X17: with config and type present, the list route answers 200 with a list
    exactly when [toBackendData] succeeds for every backend registered for
    the type, logged in or not; the list then holds the descriptors of
    these backends, one for each, in the order of registration. *)
Theorem routeListBackends_lists_all (req : Request Session ListQuery) cfg q ty :
  app_config req = Some cfg → query req = Some q → li_type q = Some ty →
  ∀ ds,
    (routeListBackends req = respondList 200 (BackendList ds)
     ↔ Forall2 (λ b d, toBackendData (session req) b = Ok d) (getBackends cfg ty) ds)
    ∧ (listJson (routeListBackends req) = BackendList ds →
       listStatus (routeListBackends req) = 200%Z
       ∧ backendId <$> ds = id <$> getBackends cfg ty).
Proof.
  intros Hc Hq Hty ds. run_route. rewrite Hc, Hq, Hty.
  pose proof (promiseAll_Ok firstRejection
                ((λ backend, toBackendData (session req) backend) <$> getBackends cfg ty))
    as Hall.
  setoid_rewrite Forall2_fmap_l in Hall.
  destruct (promiseAll firstRejection _) as [l|e]; simpl.
  - split.
    + rewrite <- Hall. split; [by intros [= <-]|by intros [= <-]].
    + intros [= <-]. split; [done|].
      assert (Forall2 (λ b d, toBackendData (session req) b = Ok d)
                (getBackends cfg ty) l) as Hl by (by apply Hall).
      clear Hall. induction Hl as [|b d bs ds' Hbd _ IH]; [done|].
      rewrite !fmap_cons, IH. f_equal.
      unfold toBackendData in Hbd. unfold_result.
      destruct (isLoggedIn b (session req)); [|done].
      destruct (getAuthorizeURL b (session req)); [|done]. by injection Hbd as <-.
  - split; [|done]. split; [done|]. intros Hl. by apply Hall in Hl.
Qed.

(** X18: when [toBackendData] fails for one of the backends, the list route
    answers with the error of such a failure, under its code or 500. *)
Theorem routeListBackends_reports_a_failure (req : Request Session ListQuery)
    cfg q ty b0 e0 :
  (∀ es, es ≠ [] → firstRejection es ∈ es) →
  app_config req = Some cfg → query req = Some q → li_type q = Some ty →
  b0 ∈ getBackends cfg ty → toBackendData (session req) b0 = Throw e0 →
  ∃ b e,
    b ∈ getBackends cfg ty
    ∧ toBackendData (session req) b = Throw e
    ∧ routeListBackends req
      = respondList (nullish (code e) 500%Z)
          (ListError true ("Error while listing backends: " +:+ error_message e)).
Proof.
  intros Hpick Hc Hq Hty Hb0 He0. run_route. rewrite Hc, Hq, Hty.
  unfold promiseAll.
  set (settled := (λ backend, toBackendData (session req) backend) <$> getBackends cfg ty).
  assert (e0 ∈ rejections settled) as Hin.
  { apply rejections_elem. rewrite <- He0. unfold settled.
    by apply (list_elem_of_fmap_2 (λ backend, toBackendData (session req) backend)). }
  destruct (rejections settled) as [|e es] eqn:Hrej; [by apply elem_of_nil in Hin|].
  assert (firstRejection (e :: es) ∈ rejections settled) as Hfirst
    by (rewrite Hrej; by apply Hpick).
  apply rejections_elem in Hfirst. unfold settled in Hfirst.
  apply list_elem_of_fmap in Hfirst as (b & Hb & Hbin).
  exists b, (firstRejection (e :: es)). by split_and!.
Qed.

(** X19: an error reported by the provider decides the login callback: the page
    has status 400, posts [error: true] without a backend id, and shows the
    error, whatever the rest of the request says. *)
Theorem provider_error_wins (req : Request Session LoginQuery) q err :
  query req = Some q → lg_error q = Some err → err ≠ "" →
  routeLoginSuccess req
  = mkPage 400 (mkPostMessage "login" true ("Error in the request " +:+ err) None)
      ("Error in the request " +:+ err).
Proof.
  intros Hq Herr Hne. run_route. rewrite Hq, Herr. simpl.
  by rewrite bool_decide_eq_false_2.
Qed.

(** X20: the login callback posts [error: false] exactly when the provider
    reports no error, backend id, config and type are present, and
    [getBackend] finds the backend; and under these conditions the page has
    status 200, says [Logged in] and posts the backend id of the request. *)
Theorem login_page_success (req : Request Session LoginQuery) :
  (pm_error (posted (routeLoginSuccess req)) = false
   ↔ ∃ cfg q bid ty b,
       app_config req = Some cfg ∧ query req = Some q
       ∧ truthy (lg_error q) = false
       ∧ lg_backendId q = Some bid ∧ lg_type q = Some ty
       ∧ getBackend cfg (session req) ty (Some bid) = Ok (Some b))
  ∧ ∀ cfg q bid ty b,
      app_config req = Some cfg → query req = Some q →
      truthy (lg_error q) = false →
      lg_backendId q = Some bid → lg_type q = Some ty →
      getBackend cfg (session req) ty (Some bid) = Ok (Some b) →
      routeLoginSuccess req
      = mkPage 200 (mkPostMessage "login" false "Logged in" (Some bid)) "Logged in".
Proof.
  assert (∀ cfg q bid ty b,
            app_config req = Some cfg → query req = Some q →
            truthy (lg_error q) = false →
            lg_backendId q = Some bid → lg_type q = Some ty →
            getBackend cfg (session req) ty (Some bid) = Ok (Some b) →
            routeLoginSuccess req
            = mkPage 200 (mkPostMessage "login" false "Logged in" (Some bid)) "Logged in")
    as Hsuccess.
  { intros cfg q bid ty b Hc Hq Herr Hbid Hty Hb. run_route.
    by rewrite Hq, Herr, Hbid, Hc, Hty, Hb. }
  split; [|exact Hsuccess]. split.
  - run_route.
    destruct (query req) as [q|]; [|done].
    destruct (truthy (lg_error q)) eqn:Herr; [done|].
    destruct (lg_backendId q) as [bid|] eqn:Hbid; [|done].
    destruct (app_config req) as [cfg|]; [|done].
    destruct (lg_type q) as [ty|] eqn:Hty; [|done].
    destruct (getBackend cfg (session req) ty (Some bid)) as [[b|]|e] eqn:Hb; [|done..].
    intros _. by exists cfg, q, bid, ty, b.
  - intros (cfg & q & bid & ty & b & Hc & Hq & Herr & Hbid & Hty & Hb).
    by rewrite (Hsuccess cfg q bid ty b).
Qed.

(** X21: with a backend id that is not the empty string, the login callback does
    not look at the session: two requests that differ in the session alone
    get the same page. *)
Theorem login_page_ignores_session cfg (q : option LoginQuery) s1 s2 :
  (∀ q', q = Some q' → lg_backendId q' ≠ Some "") →
  routeLoginSuccess (mkRequest cfg q s1) = routeLoginSuccess (mkRequest cfg q s2).
Proof.
  intros Hid. run_route.
  destruct q as [q|]; [|done]. specialize (Hid q eq_refl).
  destruct (truthy (lg_error q)); [done|].
  destruct (lg_backendId q) as [bid|]; [|done].
  destruct cfg as [cfg|]; [|done].
  destruct (lg_type q) as [ty|]; [|done]. simpl.
  unfold getBackend. simpl. rewrite bool_decide_eq_false_2 by congruence. done.
Qed.

End Routes.

(** *** Concrete requests *)

(** A storage whose [isLoggedIn] fails. *)
Definition flaky : Backend string :=
  mkBackend "flaky" "flaky" "icon.svg" (Some true) STORAGE
    (λ _ _, Ok None)
    (λ _, Ok None)
    (λ _, Throw (mkError (Some 503%Z) "storage is down"))
    (λ _, Ok ())
    (λ _, Ok someUser)
    (λ _ _, Ok ())
    (λ _ wid, Ok (mkWebsiteMeta wid 0 0 None)).

Definition flakyRegistry : ServerConfig string :=
  mkServerConfig (λ ty, match ty with
                        | STORAGE => [fs; flaky]
                        | HOSTING => []
                        end).

(** A validation error without a code. *)
Definition plainError (name : string) : JsError :=
  Error ("Missing required parameter: " +:+ name).

(** The rejection that comes first in the list. *)
Definition earliest (es : list JsError) : JsError := default (Error "") (head es).

Definition listOf (config : ServerConfig string) (ty : BackendType) (user : string)
  : Request string ListQuery :=
  mkRequest (Some config) (Some (mkListQuery (Some ty))) (Some user).

Definition callbackOf (bid : string) (err : option string) (user : option string)
  : Request string LoginQuery :=
  mkRequest (Some registry) (Some (mkLoginQuery (Some bid) (Some STORAGE) None err)) user.

(** X10, witness. *)
Lemma getBackend_answers_registered_witness :
  gitlab ∈ getBackends registry STORAGE
  ∧ (truthy None = false →
     isLoggedIn gitlab (Some "alice") = Ok true
     ∨ (head (getBackends registry STORAGE) = Some gitlab
        ∧ Forall (loggedOut (Some "alice")) (getBackends registry STORAGE))).
Proof.
  exact (getBackend_answers_registered registry (Some "alice") STORAGE None gitlab eq_refl).
Defined.

(** X11, witness. *)
Lemma getBackend_not_found_iff_empty_witness :
  getBackend flakyRegistry (Some "alice") HOSTING (Some "") = Ok None
  ↔ getBackends flakyRegistry HOSTING = [].
Proof.
  exact (getBackend_not_found_iff_empty flakyRegistry (Some "alice") HOSTING (Some "")
           eq_refl).
Defined.

(** X12, witness. *)
Lemma getBackend_fails_with_isLoggedIn_witness :
  truthy None = false
  ∧ ∃ pre b post,
      getBackends flakyRegistry STORAGE = pre ++ b :: post
      ∧ Forall (loggedOut (Some "bob")) pre
      ∧ isLoggedIn b (Some "bob") = Throw (mkError (Some 503%Z) "storage is down").
Proof.
  exact (getBackend_fails_with_isLoggedIn flakyRegistry (Some "bob") STORAGE None
           (mkError (Some 503%Z) "storage is down") eq_refl).
Defined.

(** X14, witness. *)
Lemma user_data_only_when_logged_in_witness :
  let d := mkBackendData "gitlab" STORAGE "gitlab" "icon.svg" false true
             (Some "/auth/gitlab") in
  let m := MetaOf (mkWebsiteMeta "site" 0 0 None) in
  Backends.routeLoginStatus badRequest (statusOf STORAGE (Some "site") "alice")
  = respond 200 (LoginStatusBody d someUser m)
  ∧ ∃ cfg q s b,
      app_config (statusOf STORAGE (Some "site") "alice") = Some cfg
      ∧ query (statusOf STORAGE (Some "site") "alice") = Some q
      ∧ session (statusOf STORAGE (Some "site") "alice") = Some s
      ∧ b ∈ getBackends cfg (ls_type q)
      ∧ isLoggedIn b (Some s) = Ok true
      ∧ getUserData b (Some s) = Ok someUser
      ∧ backendId d = id b.
Proof.
  exact (user_data_only_when_logged_in badRequest
           (statusOf STORAGE (Some "site") "alice") _ _ _ eq_refl).
Defined.

(** X15, witness. *)
Lemma login_status_without_coded_errors_witness :
  statusCode (Backends.routeLoginStatus plainError (statusOf STORAGE None "bob"))
  ∈ [200; 401; 500]%Z.
Proof.
  apply (login_status_without_coded_errors plainError (statusOf STORAGE None "bob")).
  - reflexivity.
  - intros cfg ty b s wid [= <-] Hb.
    assert (∃ bid t users, b = backendFor bid t users) as (bid & t & users & ->).
    { destruct ty; simpl in Hb;
        repeat (apply elem_of_cons in Hb as [->|Hb]; [by eexists _, _, _|]);
        by apply elem_of_nil in Hb. }
    unfold uncoded. simpl. split_and!; intros e He; discriminate He.
Defined.

(** X17, witness. *)
Lemma routeListBackends_lists_all_witness :
  let ds := [mkBackendData "fs" STORAGE "fs" "icon.svg" false false (Some "/auth/fs");
             mkBackendData "gitlab" STORAGE "gitlab" "icon.svg" false false
               (Some "/auth/gitlab")] in
  (Routes.routeListBackends badRequest earliest (listOf registry STORAGE "bob")
   = respondList 200 (BackendList ds)
   ↔ Forall2 (λ b d, toBackendData (Some "bob") b = Ok d) (getBackends registry STORAGE) ds)
  ∧ (listJson (Routes.routeListBackends badRequest earliest (listOf registry STORAGE "bob"))
     = BackendList ds →
     listStatus (Routes.routeListBackends badRequest earliest (listOf registry STORAGE "bob"))
     = 200%Z
     ∧ backendId <$> ds = id <$> getBackends registry STORAGE).
Proof.
  exact (routeListBackends_lists_all badRequest earliest (listOf registry STORAGE "bob")
           registry (mkListQuery (Some STORAGE)) STORAGE eq_refl eq_refl eq_refl _).
Defined.

(** X18, witness. *)
Lemma routeListBackends_reports_a_failure_witness :
  ∃ b e,
    b ∈ getBackends flakyRegistry STORAGE
    ∧ toBackendData (Some "bob") b = Throw e
    ∧ Routes.routeListBackends badRequest earliest (listOf flakyRegistry STORAGE "bob")
      = respondList (nullish (code e) 500%Z)
          (ListError true ("Error while listing backends: " +:+ error_message e)).
Proof.
  refine (routeListBackends_reports_a_failure badRequest earliest
            (listOf flakyRegistry STORAGE "bob") flakyRegistry (mkListQuery (Some STORAGE))
            STORAGE flaky (mkError (Some 503%Z) "storage is down")
            _ eq_refl eq_refl eq_refl _ eq_refl).
  - intros [|e es] Hne; [done|]. apply list_elem_of_here.
  - apply list_elem_of_further, list_elem_of_here.
Defined.

(** X19, witness. *)
Lemma provider_error_wins_witness :
  Routes.routeLoginSuccess badRequest (callbackOf "gitlab" (Some "access_denied") (Some "alice"))
  = mkPage 400
      (mkPostMessage "login" true "Error in the request access_denied" None)
      "Error in the request access_denied".
Proof.
  refine (provider_error_wins badRequest
            (callbackOf "gitlab" (Some "access_denied") (Some "alice"))
            (mkLoginQuery (Some "gitlab") (Some STORAGE) None (Some "access_denied"))
            "access_denied" eq_refl eq_refl _).
  discriminate.
Defined.

(** X20, witness: the callback for alice and the storage gitlab. *)
Lemma login_page_success_witness :
  Routes.routeLoginSuccess badRequest (callbackOf "gitlab" None (Some "alice"))
  = mkPage 200 (mkPostMessage "login" false "Logged in" (Some "gitlab")) "Logged in".
Proof.
  exact (proj2 (login_page_success badRequest (callbackOf "gitlab" None (Some "alice")))
           registry (mkLoginQuery (Some "gitlab") (Some STORAGE) None None)
           "gitlab" STORAGE gitlab eq_refl eq_refl eq_refl eq_refl eq_refl eq_refl).
Defined.

(** X21, witness. *)
Lemma login_page_ignores_session_witness :
  Routes.routeLoginSuccess badRequest (callbackOf "fs" None (Some "bob"))
  = Routes.routeLoginSuccess badRequest (callbackOf "fs" None None).
Proof.
  refine (login_page_ignores_session badRequest (Some registry)
            (Some (mkLoginQuery (Some "fs") (Some STORAGE) None None))
            (Some "bob") None _).
  intros q' [= <-]. discriminate.
Defined.

End BackendsMore.

(** ** Facts about the command that resizes the project panel *)
Module ResizeProjectPanelFacts.
Import ResizeProjectPanel.

(** The width that a call leaves in [--viewsProjectPanelWidth]. *)
Definition width (k : call) : string :=
  match k with Run => "26%" | Stop => "13%" end.

Lemma perform_overwrites (k : call) (calls : list call) (style : gmap string string) :
  perform (mkCommand run stop) k
    (foldl (λ st c, perform (mkCommand run stop) c st) style calls)
  = <["--viewsProjectPanelWidth" := width k]> style.
Proof.
  revert style. induction calls as [|c calls IH]; intros style.
  - by destruct k.
  - simpl. rewrite IH. destruct c, k; simpl; unfold run, stop, setProperty;
      apply insert_insert_eq.
Qed.

(** X22: the plugin registers one command, under the name
    [resize-project-panel], and leaves the other commands of the editor as
    they are.  After any calls of its [run] and [stop], the style of the
    document differs from the style before the first call in
    [--viewsProjectPanelWidth] alone, which holds the width of the last
    call: 26% after [run], 13% after [stop]. *)
Theorem last_call_sets_the_width (commands : gmap string Command) :
  ∃ cmd,
    plugin commands !! cmdResizeProjectPanel = Some cmd
    ∧ (∀ name, name ≠ cmdResizeProjectPanel → plugin commands !! name = commands !! name)
    ∧ ∀ (calls : list call) (k : call) (style : gmap string string),
        let style' := foldl (λ st c, perform cmd c st) style (calls ++ [k]) in
        style' !! "--viewsProjectPanelWidth" = Some (width k)
        ∧ ∀ name, name ≠ "--viewsProjectPanelWidth" → style' !! name = style !! name.
Proof.
  exists (mkCommand run stop). unfold plugin. split_and!.
  - apply lookup_insert_eq.
  - intros name Hname. by apply lookup_insert_ne.
  - intros calls k style. rewrite foldl_app. simpl. rewrite perform_overwrites. split.
    + apply lookup_insert_eq.
    + intros name Hname. by apply lookup_insert_ne.
Qed.

End ResizeProjectPanelFacts.
